(** * Temporal segmentation, artifact cleanup and range serving

    A shallow embedding of the back end of the crowd-monitoring service:
    [Back_End/fyp.py] (the HTTP service) and [Back_End/main.py] (the
    command-line pipeline, which shares [find_abnormal_segments],
    [export_clip], [create_timestamp_clip] and [stitch_clips] with it).

    Conventions of the embedding:
    - Python floats that hold timestamps (seconds) are rationals [Q] with
      exact arithmetic; the code applies only [-], [/], [<], [<=], [max]
      and [min] to them.
    - Python lists passed between functions are objects on a heap
      ([gmap nat (list Q)]): a function receiving a list receives its
      location, so mutation in place is visible to the caller.
    - Python ints are [Z]; [str] values are [string]; [bytes] are
      [list byte].
    - The file system is a tree of named entries below the working
      directory; effectful code is a world transformer that returns or
      raises, and records what it deletes, writes and sends in a trace.
    - The detector, the flow estimator, the codec, the plotting library
      and the summary service are a class of collaborators; loading the
      models is taken to succeed. *)

From Stdlib Require Import QArith Qminmax Sorted Lqa.
From Stdlib.Strings Require Import Byte Ascii String.
From stdpp Require Import gmap strings list pretty.

Set Warnings "-register-all".
Local Open Scope Q_scope.

(** ** Rational comparisons as Python evaluates them *)

Definition Qlt_bool (x y : Q) : bool := negb (Qle_bool y x).

(** ** [list.sort()]

    Python's sort is stable, ascending, and compares with [<] only.  The
    embedding is the stable insertion sort: an element moves right past
    exactly the elements strictly smaller than it. *)

Fixpoint sort_insert (x : Q) (l : list Q) : list Q :=
  match l with
  | [] => [x]
  | y :: l' => if Qlt_bool y x then y :: sort_insert x l' else x :: y :: l'
  end.

Fixpoint py_sort (l : list Q) : list Q :=
  match l with
  | [] => []
  | x :: l' => sort_insert x (py_sort l')
  end.

(** Ascending order: every element is at most each later one. *)
Definition ascending (l : list Q) : Prop := StronglySorted Qle l.

(** ** The segmenter, [find_abnormal_segments] *)

Module Segmenter.

Definition segment : Type := Q * Q.

Abbreviation loc := nat (only parsing).
Abbreviation heap := (gmap nat (list Q)) (only parsing).

(** The state of the [for t in timestamps[1:]] loop: [(segs, s, e)]. *)
Record loop_state := LoopState {
  ls_segs : list segment;
  ls_s : Q;
  ls_e : Q
}.

(** One iteration of the loop body. *)
Definition loop_body (gap : Q) (st : loop_state) (t : Q) : loop_state :=
  if Qle_bool (t - ls_e st) gap
  then LoopState (ls_segs st) (ls_s st) t
  else LoopState (ls_segs st ++ [(ls_s st, ls_e st)]) t t.

(** The part of the function after [timestamps.sort()], on the sorted
    contents of the list. *)
Definition segments_of_sorted (sorted : list Q) (gap : Q) : list segment :=
  match sorted with
  | [] => []
  | t0 :: rest =>
      let st := fold_left (loop_body gap) rest (LoopState [] t0 t0) in
      ls_segs st ++ [(ls_s st, ls_e st)]
  end.

(** [find_abnormal_segments(timestamps, gap)]: [timestamps] is the
    location of the caller's list.  The result is the returned list of
    segments and the heap after the call; [None] stands for a dangling
    location, which Python cannot produce. *)
Definition find_abnormal_segments (timestamps : loc) (gap : Q) (h : heap)
  : option (list segment * heap) :=
  match h !! timestamps with
  | None => None
  | Some [] => Some ([], h)
  | Some (t :: ts) =>
      let sorted := py_sort (t :: ts) in
      let h' := <[timestamps := sorted]> h in
      Some (segments_of_sorted sorted gap, h')
  end.

(** A call on a list that no one else holds, as [process_video] and
    [main] make it: the list is allocated, passed, and dropped. *)
Definition call_on_fresh (ts : list Q) (gap : Q) : list segment :=
  match find_abnormal_segments 0%nat gap {[0%nat := ts]} with
  | Some (segs, _) => segs
  | None => []
  end.

(** *** The algorithm as the specification words it *)




End Segmenter.

(** ** Margins around a segment ([process_video], step 4) *)

Module Margin.

(** [max(a, b)] and [min(a, b)] of Python keep the first argument unless
    the second is strictly larger (smaller). *)
Definition py_max (a b : Q) : Q := if Qlt_bool a b then b else a.
Definition py_min (a b : Q) : Q := if Qlt_bool b a then b else a.

Definition MARGIN_S : Q := 5.
Definition GAP_S : Q := 4.

(** [start = max(0, s - MARGIN_S)] and [end = min(vlen, e + MARGIN_S)],
    with the margin as a parameter. *)
Definition margined (m vlen : Q) (seg : Segmenter.segment) : Q * Q :=
  (py_max 0 (fst seg - m), py_min vlen (snd seg + m)).

End Margin.

(** ** The file system and the effects of a request *)

Module Fs.

(** A directory lists its entries in the order [os.listdir] reports them. *)
Inductive node :=
| File (data : list byte)
| Dir (entries : list (string * node)).

(** A path is the list of its components below the working directory:
    [os.path.join(d, f)] is [[d; f]], a bare name [f] is [[f]]. *)
Definition path := list string.

Fixpoint assoc (c : string) (es : list (string * node)) : option node :=
  match es with
  | [] => None
  | (c', n) :: es' => if decide (c' = c) then Some n else assoc c es'
  end.

Fixpoint lookup_path (n : node) (p : path) : option node :=
  match p with
  | [] => Some n
  | c :: p' =>
      match n with
      | Dir es => match assoc c es with
                  | Some n' => lookup_path n' p'
                  | None => None
                  end
      | File _ => None
      end
  end.

(** Unlink the entry named by the last component. *)
Fixpoint remove_path (n : node) (p : path) : node :=
  match p, n with
  | [c], Dir es => Dir (filter (fun e : string * node => e.1 <> c) es)
  | c :: p', Dir es =>
      Dir (map (fun e : string * node =>
                  if decide (e.1 = c) then (e.1, remove_path e.2 p') else e) es)
  | _, _ => n
  end.

(** Replace the entry [c], or add it at the end. *)
Fixpoint put (c : string) (n : node) (es : list (string * node))
  : list (string * node) :=
  match es with
  | [] => [(c, n)]
  | (c', n') :: es' =>
      if decide (c' = c) then (c, n) :: es' else (c', n') :: put c n es'
  end.

Fixpoint write_path (n : node) (p : path) (data : list byte) : node :=
  match p, n with
  | [c], Dir es => Dir (put c (File data) es)
  | c :: p', Dir es =>
      Dir (map (fun e : string * node =>
                  if decide (e.1 = c) then (e.1, write_path e.2 p' data) else e) es)
  | _, _ => n
  end.

(** The parent directory of a path. *)
Definition parent (p : path) : path := removelast p.

(** What can be observed of a run from outside. *)
Inductive event :=
| EvRemove (p : path)                 (* [os.remove] *)
| EvWrite (p : path)                  (* a file created or overwritten *)
| EvUpload (p : path)                 (* [gclient.files.upload] *)
| EvSleep                             (* [time.sleep(10)] *)
| EvGenerate.                         (* [gclient.models.generate_content] *)

Definition is_remove (e : event) : Prop :=
  match e with EvRemove _ => True | _ => False end.

Definition is_write (e : event) : Prop :=
  match e with EvWrite _ => True | _ => False end.

Inductive exn :=
| OSError (p : path)                  (* raised by [os.listdir], [os.remove], [open] *)
| KeyError (k : string)               (* raised by [data[key]] *)
| HTTPException (status : Z).

Inductive result (A : Type) :=
| Ok (a : A)
| Raise (e : exn).
Arguments Ok {A} a.
Arguments Raise {A} e.

Record world := World {
  w_fs : node;                        (* the working directory *)
  w_trace : list event                (* oldest event first *)
}.

(** Effectful code: a world transformer that returns or raises.  The world
    after a raise is the world at the point of the raise: nothing is rolled
    back. *)
Definition M (A : Type) : Type := world -> result A * world.

Definition ret {A} (a : A) : M A := fun w => (Ok a, w).
Definition raise {A} (e : exn) : M A := fun w => (Raise e, w).
Definition bind {A B} (m : M A) (k : A -> M B) : M B :=
  fun w => match m w with
           | (Ok a, w') => k a w'
           | (Raise e, w') => (Raise e, w')
           end.

Definition emit (e : event) : M unit :=
  fun w => (Ok tt, World (w_fs w) (w_trace w ++ [e])).

Definition get_fs : M node := fun w => (Ok (w_fs w), w).
Definition set_fs (n : node) : M unit :=
  fun w => (Ok tt, World n (w_trace w)).

Fixpoint for_each {A} (body : A -> M unit) (l : list A) : M unit :=
  match l with
  | [] => ret tt
  | x :: l' => bind (body x) (fun _ => for_each body l')
  end.

(** [os.listdir(p)] *)
Definition listdir (p : path) : M (list string) :=
  bind get_fs (fun root =>
    match lookup_path root p with
    | Some (Dir es) => ret (map fst es)
    | _ => raise (OSError p)
    end).

(** [os.remove(p)]: unlinks a file; a directory or a missing entry raises. *)
Definition os_remove (p : path) : M unit :=
  bind get_fs (fun root =>
    match lookup_path root p with
    | Some (File _) =>
        bind (set_fs (remove_path root p)) (fun _ => emit (EvRemove p))
    | _ => raise (OSError p)
    end).

(** [open(p, "w")] followed by a write and close: the parent must be a
    directory and the target must not be one. *)
Definition open_write (p : path) (data : list byte) : M unit :=
  bind get_fs (fun root =>
    match lookup_path root (parent p), lookup_path root p with
    | Some (Dir _), Some (Dir _) => raise (OSError p)
    | Some (Dir _), _ =>
        bind (set_fs (write_path root p data)) (fun _ => emit (EvWrite p))
    | _, _ => raise (OSError p)
    end).

(** OpenCV writers ([cv2.VideoWriter], [cv2.imwrite]) do not raise when
    the target cannot be created: the write is then lost. *)
Definition cv_write (p : path) (data : list byte) : M unit :=
  bind get_fs (fun root =>
    match lookup_path root (parent p), lookup_path root p with
    | Some (Dir _), Some (Dir _) => ret tt
    | Some (Dir _), _ =>
        bind (set_fs (write_path root p data)) (fun _ => emit (EvWrite p))
    | _, _ => ret tt
    end).

(** [emits P m]: whatever [m] appends to the trace satisfies [P], whether it
    returns or raises. *)
Definition emits {A} (P : event -> Prop) (m : M A) : Prop :=
  forall w r w', m w = (r, w') ->
    exists evs, w_trace w' = w_trace w ++ evs /\ Forall P evs.

(** The entries of [es] whose name is not among [names]. *)
Definition without (names : list string) (es : list (string * node))
  : list (string * node) :=
  filter (fun e : string * node => e.1 ∉ names) es.

End Fs.

(** ** The artifact lifecycle manager, [clean_dirs] *)

Module Lifecycle.
Import Fs.

Definition ORIGINAL_DIR : string := "originals".
Definition CLIP_DIR : string := "abnormal_clips".
Definition GROUND_TRUTH : string := "groundtruth".
Definition FRAME_DIR : string := "abnormal_frames".
Definition EXT : string := ".mp4".

(** [f.startswith(p)] *)
Definition startswith (p f : string) : bool := String.prefix p f.

(** The test of the second loop of [clean_dirs]. *)
Definition stale (key f : string) : bool :=
  startswith ("processed_" +:+ key) f || startswith ("combined_" +:+ key) f.

Definition clean_dirs (key : string) : M unit :=
  bind
    (for_each
       (fun d => bind (listdir [d])
                   (for_each (fun f => os_remove [d; f])))
       [CLIP_DIR; FRAME_DIR; GROUND_TRUTH])
    (fun _ =>
       bind (listdir [])
         (for_each (fun f => if stale key f then os_remove [f] else ret tt))).

End Lifecycle.

(** ** The range-serving endpoint, [_range_file] *)

Module RangeServing.
Import Fs.

Local Open Scope Z_scope.

(** *** The match of the range pattern

    The pattern of [re.match] is the literal [bytes=], a group of one or
    more digits, a dash, and a group of zero or more digits.  Header values
    reach the application decoded as Latin-1, where the characters of the
    digit class are exactly ['0'] to ['9']. *)

Definition is_digit (c : ascii) : bool :=
  let n := nat_of_ascii c in (48 <=? n)%nat && (n <=? 57)%nat.

(** The longest prefix of digits, and the rest. *)
Fixpoint span_digits (s : string) : string * string :=
  match s with
  | String c s' =>
      if is_digit c
      then let '(ds, rest) := span_digits s' in (String c ds, rest)
      else (EmptyString, s)
  | EmptyString => (EmptyString, EmptyString)
  end.

Fixpoint strip_prefix (p s : string) : option string :=
  match p with
  | EmptyString => Some s
  | String a p' =>
      match s with
      | String b s' => if decide (a = b) then strip_prefix p' s' else None
      | EmptyString => None
      end
  end.

(** The match object, as its two groups.  [re.match] anchors at the start
    only: text after the second group is ignored.  The dash is not a
    digit, so the longest run of digits is the only first group after
    which the match can go on: no backtracking is needed. *)
Definition re_match_range (s : string) : option (string * string) :=
  match strip_prefix "bytes=" s with
  | None => None
  | Some s1 =>
      let '(g1, s2) := span_digits s1 in
      match g1, s2 with
      | String _ _, String "-" s3 => Some (g1, fst (span_digits s3))
      | _, _ => None
      end
  end.

(** [int(ds)] on a string of decimal digits. *)
Definition digit_value (c : ascii) : Z := Z.of_nat (nat_of_ascii c) - 48.

Fixpoint int_acc (acc : Z) (ds : string) : Z :=
  match ds with
  | EmptyString => acc
  | String c ds' => int_acc (10 * acc + digit_value c) ds'
  end.

Definition int (ds : string) : Z := int_acc 0 ds.

(** [str(n)] *)
Definition str (n : Z) : string := pretty n.

(** *** The file object read by [iterfile] *)

Record file_obj := FileObj {
  fo_data : list byte;
  fo_pos : nat
}.

(** [f.seek(start)]: any position is accepted, also past the end. *)
Definition seek (start : Z) (f : file_obj) : file_obj :=
  FileObj (fo_data f) (Z.to_nat start).

(** [f.read(n)]: up to [n] bytes from the position, which advances. *)
Definition read (n : Z) (f : file_obj) : list byte * file_obj :=
  let chunk := take (Z.to_nat n) (drop (fo_pos f) (fo_data f)) in
  (chunk, FileObj (fo_data f) (fo_pos f + length chunk)).

Definition CHUNK : Z := 1024 * 1024.


(** The [while remaining > 0] loop of [iterfile]; the result is the list of
    the chunks yielded.  [fuel] bounds the number of iterations. *)
Fixpoint iterfile_loop (chunk_size : Z) (fuel : nat) (f : file_obj) (remaining : Z)
  : list (list byte) :=
  match fuel with
  | O => []
  | S fuel' =>
      if 0 <? remaining then
        let '(chunk, f') := read (Z.min chunk_size remaining) f in
        match chunk with
        | [] => []
        | _ :: _ =>
            chunk :: iterfile_loop chunk_size fuel' f'
                       (remaining - Z.of_nat (length chunk))
        end
      else []
  end.

(** Every iteration that continues lowers [remaining] by at least one, so
    [remaining] iterations are enough. *)
Definition iterfile (data : list byte) (start length : Z) : list (list byte) :=
  iterfile_loop CHUNK (Z.to_nat length) (seek start (FileObj data 0)) length.

Inductive response :=
| HTTPError (status : Z) (detail : string)
    (* [raise HTTPException(status, detail)] *)
| FileResponse (p : path) (data : list byte) (media_type : string)
    (* the whole file, status 200 *)
| StreamingResponse (status : Z) (headers : list (string * string))
    (media_type : string) (body : list (list byte))
| NotAFile (p : path).
    (* the path names a directory: what is served then is left open *)


(** Request headers, names in lower case as the server hands them over. *)
Record request := Request { headers : list (string * string) }.

Fixpoint headers_get (name : string) (hs : list (string * string)) : option string :=
  match hs with
  | [] => None
  | (k, v) :: hs' => if decide (k = name) then Some v else headers_get name hs'
  end.

(** The partial response built when the header matches. *)
Definition partial_response (data : list byte) (media_type : string)
    (g1 g2 : string) : response :=
  let file_size := Z.of_nat (length data) in
  let start := int g1 in
  let end_ := match g2 with
              | EmptyString => file_size - 1
              | String _ _ => int g2
              end in
  let end_ := Z.min end_ (file_size - 1) in
  let length := end_ - start + 1 in
  let headers :=
    [ ("Content-Range",
       "bytes " +:+ str start +:+ "-" +:+ str end_ +:+ "/" +:+ str file_size);
      ("Accept-Ranges", "bytes");
      ("Content-Length", str length) ] in
  StreamingResponse 206 headers media_type (iterfile data start length).

Definition _range_file (root : node) (req : request) (p : path)
    (media_type : string) : response :=
  match lookup_path root p with
  | None => HTTPError 404 "Not found"
  | Some (Dir _) => NotAFile p
  | Some (File data) =>
      match headers_get "range" (headers req) with
      | Some (String c h as range_header) =>
          match re_match_range range_header with
          | Some (g1, g2) => partial_response data media_type g1 g2
          | None => FileResponse p data media_type
          end
      | _ => FileResponse p data media_type
      end
  end.

Definition get_original (root : node) (req : request) (filename : string) : response :=
  _range_file root req [Lifecycle.ORIGINAL_DIR; filename] "video/mp4".

Definition get_clip (root : node) (req : request) (filename : string) : response :=
  _range_file root req [Lifecycle.CLIP_DIR; filename] "video/mp4".

(** *** The header format as the specification words it:
    [bytes=<start>-<end?>], [<start>] a non-empty run of digits and
    [<end>] a possibly empty one, at the start of the header value. *)
Definition all_digits (s : string) : Prop :=
  Forall (fun c => is_digit c = true) (list_ascii_of_string s).


End RangeServing.

(** ** The processing run, [process_video] *)

Module Pipeline.
Import Fs Lifecycle.

(** [os.path.splitext(p)[0]] for a name without directory separators: the
    extension starts at the last dot, unless only dots precede it. *)
Fixpoint split_last_dot (cs : list ascii) : option (list ascii * list ascii) :=
  match cs with
  | [] => None
  | c :: cs' =>
      match split_last_dot cs' with
      | Some (before, ext) => Some (c :: before, ext)
      | None => if decide (c = "."%char) then Some ([], c :: cs') else None
      end
  end.

Definition splitext_root (p : string) : string :=
  match split_last_dot (list_ascii_of_string p) with
  | Some (before, _) =>
      if forallb (fun c => bool_decide (c = "."%char)) before then p
      else string_of_list_ascii before
  | None => p
  end.

(** [f"{n:0<width>d}"] for [n >= 0]. *)
Definition zfill (width : nat) (n : Z) : string :=
  let digits := pretty n in
  string_of_list_ascii (replicate (width - String.length digits) "0"%char)
    +:+ digits.

(** [text.replace(a, b)] for single characters. *)
Fixpoint replace_char (a b : ascii) (s : string) : string :=
  match s with
  | EmptyString => EmptyString
  | String c s' => String (if decide (c = a) then b else c) (replace_char a b s')
  end.

(** What [cv2.VideoCapture] reports of an opened video. *)
Record video (frame : Type) := Video {
  v_fps : Q;                          (* [CAP_PROP_FPS] *)
  v_frame_count : Z;                  (* [CAP_PROP_FRAME_COUNT] *)
  v_frames : list frame               (* the frames [cap.read()] delivers *)
}.
Arguments Video {frame}.
Arguments v_fps {frame}.
Arguments v_frame_count {frame}.
Arguments v_frames {frame}.

(** The payload of the [JSONResponse]. *)
Record ProcessVideoResponse := Response {
  original_video : string;
  clips : list string;
  summary_file : string;
  ground_truth_files : list string
}.

(** The external collaborators of a run: codec, detector, flow estimator,
    plotting, the summary service and float formatting. *)
Class Collaborators (frame : Type) := {
  decode : list byte -> option (video frame);
    (* [cv2.VideoCapture(path)]; [None] when [isOpened()] is false *)
  annotate : frame -> frame;
    (* [cv2.resize], [detect_people] and the green boxes *)
  highlight : frame -> frame;
    (* the red boxes *)
  flow_exceeds : frame -> frame -> bool;
    (* [np.mean(np.linalg.norm(compute_raft_flow(..), axis=-1)) > RAFT_TH] *)
  encode_video : Q -> list frame -> list byte;
  encode_image : frame -> list byte;
  cut : option (list byte) -> Q -> Q -> list byte;
    (* the frames of a source between two times, re-encoded *)
  title_card : string -> Q -> list byte;
  concat_videos : list (option (list byte)) -> list byte;
  plot_labels : list byte -> string -> option (list byte);
    (* the plot of [np.load(file)[key]]; [None] when the key is absent *)
  summarize : option (list byte) -> string;
    (* the text of the summary service's answer *)
  json_dump : string -> list byte;
  format_1f : Q -> string
    (* [f"{x:.1f}"] *)
}.

Definition read_file (p : path) : M (option (list byte)) :=
  bind get_fs (fun root =>
    ret (match lookup_path root p with
         | Some (File d) => Some d
         | _ => None
         end)).

Fixpoint read_all (ps : list path) : M (list (option (list byte))) :=
  match ps with
  | [] => ret []
  | p :: ps' =>
      bind (read_file p) (fun d =>
        bind (read_all ps') (fun ds => ret (d :: ds)))
  end.

Section WithCollaborators.
Context {frame : Type} `{Collaborators frame}.

(** [export_clip(src, start_s, end_s, dst, fps, size)] *)
Definition export_clip (src : path) (start_s end_s : Q) (dst : path) : M unit :=
  bind (read_file src) (fun d => cv_write dst (cut d start_s end_s)).

(** [create_timestamp_clip(text, size, fps=fps)]: returns the name of the
    file it wrote. *)
Definition create_timestamp_clip (text : string) (fps : Q) : M path :=
  let tmp := "ts_" +:+ replace_char ":" "-" (replace_char " " "_" text) +:+ ".mp4" in
  bind (cv_write [tmp] (title_card text fps)) (fun _ => ret [tmp]).

(** The first loop of [stitch_clips], over [zip(clips, segments)]. *)
Fixpoint stitch_parts (fps : Q) (pairs : list (path * Segmenter.segment))
  : M (list path) :=
  match pairs with
  | [] => ret []
  | (clip, (s, e)) :: pairs' =>
      bind (create_timestamp_clip
              (format_1f s +:+ "s to " +:+ format_1f e +:+ "s") fps)
        (fun tmp =>
           bind (stitch_parts fps pairs')
             (fun parts => ret (tmp :: clip :: parts)))
  end.

(** [stitch_clips(clips, segments, out, size, fps)] *)
Definition stitch_clips (clip_files : list (path * Segmenter.segment))
    (out : path) (fps : Q) : M path :=
  bind (stitch_parts fps clip_files) (fun parts =>
    bind (cv_write out (concat_videos [])) (fun _ =>
      bind (read_all parts) (fun ds =>
        bind (cv_write out (concat_videos ds)) (fun _ => ret out)))).

(** [plot_and_save_ground_truth_labels("NWPU_Campus_gt.npz", key)] *)
Definition plot_and_save_ground_truth_labels (file_path : path) (key : string)
  : M string :=
  bind (read_file file_path) (fun d =>
    match d with
    | None => raise (OSError file_path)
    | Some npz =>
        match plot_labels npz key with
        | None => raise (KeyError key)
        | Some png =>
            let name := key +:+ "_groundtruth.png" in
            bind (open_write [GROUND_TRUTH; name] png) (fun _ => ret name)
        end
    end).

(** The state of the frame loop of step 3. *)
Record loop_state := LoopState {
  prev : option frame;
  times : list Q;
  idx : Z;
  written : list frame              (* what [writer.write] received *)
}.

Fixpoint frame_loop (fps : Q) (frames : list frame) (st : loop_state)
  : M loop_state :=
  match frames with
  | [] => ret st
  | frm0 :: frames' =>
      let idx := (idx st + 1)%Z in
      let frm := annotate frm0 in
      let anomalous := match prev st with
                       | Some p => flow_exceeds p frm
                       | None => false
                       end in
      if anomalous then
        let t := inject_Z idx / fps in
        let frm := highlight frm in
        bind (cv_write [FRAME_DIR; "frame_" +:+ zfill 6 idx +:+ ".jpg"]
                (encode_image frm))
          (fun _ => frame_loop fps frames'
                      (LoopState (Some frm) (times st ++ [t]) idx
                                 (written st ++ [frm])))
      else
        frame_loop fps frames'
          (LoopState (Some frm) (times st) idx (written st ++ [frm]))
  end.

(** Step 4: one clip per segment, numbered from [i]. *)
Fixpoint cut_clips (src : path) (vlen : Q) (i : Z)
    (segments : list Segmenter.segment) : M (list (path * Segmenter.segment)) :=
  match segments with
  | [] => ret []
  | seg :: segments' =>
      let '(start, end_) := Margin.margined Margin.MARGIN_S vlen seg in
      let outfn := [CLIP_DIR; "clip_" +:+ zfill 2 i +:+ EXT] in
      bind (export_clip src start end_ outfn) (fun _ =>
        bind (cut_clips src vlen (i + 1) segments') (fun rest =>
          ret ((outfn, seg) :: rest)))
  end.

(** Step 5: stitch, upload and summarize, only when there are clips. *)
Definition upload_and_summarize (clip_files : list (path * Segmenter.segment))
    (out_combined : path) (fps : Q) : M string :=
  match clip_files with
  | _ :: _ =>
      bind (stitch_clips clip_files out_combined fps) (fun combined =>
        bind (read_file combined) (fun fh =>
          bind (emit (EvUpload combined)) (fun _ =>
            bind (emit EvSleep) (fun _ =>
              bind (emit EvGenerate) (fun _ =>
                bind (open_write ["summaries.json"] (json_dump (summarize fh)))
                  (fun _ => ret "summaries.json"))))))
  | [] => ret ""
  end.

(** The frame rate the run works with: [cap.get(CAP_PROP_FPS) or 30.0]. *)
Definition run_fps (cap : video frame) : Q :=
  if Qeq_bool (v_fps cap) 0 then 30 else v_fps cap.

(** The frame loop, the clips and the summary, once the capture is open:
    what steps 3 to 5 of [process_video] and the body of [main] in
    [main.py] have in common.  The result is the list of clips with their
    segments and the name of the summary file, empty when there is none. *)
Definition cut_and_summarize (OUT_FULL OUT_COMBINED : path) (cap : video frame)
  : M (list (path * Segmenter.segment) * string) :=
  let fps := run_fps cap in
  let total := v_frame_count cap in
  let vlen := inject_Z total / fps in
  bind (cv_write OUT_FULL (encode_video fps [])) (fun _ =>
    bind (frame_loop fps (v_frames cap) (LoopState None [] 0%Z [])) (fun st =>
      bind (cv_write OUT_FULL (encode_video fps (written st))) (fun _ =>
        let segments := Segmenter.call_on_fresh (times st) Margin.GAP_S in
        bind (cut_clips OUT_FULL vlen 1 segments) (fun clip_files =>
          bind (upload_and_summarize clip_files OUT_COMBINED fps) (fun summary_file =>
            ret (clip_files, summary_file)))))).

(** Steps 3 to 5 of [process_video] and its response. *)
Definition analyse (key filename gt_file : string) (cap : video frame)
  : M ProcessVideoResponse :=
  bind (cut_and_summarize ["processed_" +:+ key +:+ EXT]
          ["combined_" +:+ key +:+ EXT] cap)
    (fun '(clip_files, summary_file) =>
       ret (Response filename
              (map (fun c : path * Segmenter.segment => List.last c.1 "") clip_files)
              summary_file [gt_file])).

(** [os.makedirs(d, exist_ok=True)] for a name in the working directory. *)
Definition makedirs (d : string) : M unit :=
  bind get_fs (fun root =>
    match root with
    | Dir top =>
        match assoc d top with
        | Some (Dir _) => ret tt
        | Some (File _) => raise (OSError [d])
        | None => set_fs (Dir (top ++ [(d, Dir [])]))
        end
    | File _ => raise (OSError [d])
    end).

(** [cv2.VideoCapture(p)] without a check of [isOpened()]: a capture that
    does not open reports no frame rate and delivers no frame. *)
Definition capture_of (root : node) (p : path) : video frame :=
  match lookup_path root p with
  | Some (File d) => match decode d with
                     | Some cap => cap
                     | None => Video 0 0 []
                     end
  | _ => Video 0 0 []
  end.

(** [main()] of [main.py] *)
Definition main : M unit :=
  let IN_VIDEO := ["D001_03.avi"] in
  bind (makedirs FRAME_DIR) (fun _ =>
    bind (makedirs CLIP_DIR) (fun _ =>
      bind get_fs (fun root =>
        bind (cut_and_summarize ["processed_main.mp4"]
                ["combined_abnormal_clips.mp4"] (capture_of root IN_VIDEO))
          (fun _ => ret tt)))).

(** Steps 0 to 2: clean out old files, save the upload, plot the ground
    truth.  The result is the name of the plot. *)
Definition prepare (key filename : string) (upload : list byte) : M string :=
  bind (clean_dirs key) (fun _ =>
    bind (open_write [ORIGINAL_DIR; filename] upload) (fun _ =>
      plot_and_save_ground_truth_labels ["NWPU_Campus_gt.npz"] key)).

(** [process_video(IN_VIDEO)]: the upload is its file name and its bytes. *)
Definition process_video (filename : string) (upload : list byte)
  : M ProcessVideoResponse :=
  let key := splitext_root filename in
  bind (prepare key filename upload) (fun gt_file =>
    bind (read_file [ORIGINAL_DIR; filename]) (fun d =>
      match d with
      | None => raise (HTTPException 400)
      | Some bytes =>
          match decode bytes with
          | None => raise (HTTPException 400)
          | Some cap => analyse key filename gt_file cap
          end
      end)).

(** The anomaly timestamps a video gives rise to, without the effects. *)
Fixpoint anomaly_times (fps : Q) (frames : list frame) (prev : option frame)
    (idx : Z) : list Q :=
  match frames with
  | [] => []
  | frm0 :: frames' =>
      let idx := (idx + 1)%Z in
      let frm := annotate frm0 in
      match prev with
      | Some p =>
          if flow_exceeds p frm
          then inject_Z idx / fps
               :: anomaly_times fps frames' (Some (highlight frm)) idx
          else anomaly_times fps frames' (Some frm) idx
      | None => anomaly_times fps frames' (Some frm) idx
      end
  end.

(** The segments the run of a video cuts clips for. *)
Definition run_segments (cap : video frame) : list Segmenter.segment :=
  Segmenter.call_on_fresh
    (anomaly_times (run_fps cap) (v_frames cap) None 0) Margin.GAP_S.

End WithCollaborators.

(** The events of a run up to the end of the frame loop: the saved upload,
    the ground-truth plot, the annotated video and the highlighted frames. *)
Definition not_remove (e : event) : Prop := ~ is_remove e.

(** The writes of the frame loop: the annotated video [out_full] and the
    highlighted frames. *)
Definition frame_loop_event (out_full : path) (e : event) : Prop :=
  e = EvWrite out_full \/ exists f, e = EvWrite [FRAME_DIR; f].

Definition pre_clip_event (key filename : string) (e : event) : Prop :=
  match e with
  | EvWrite p =>
      p = [ORIGINAL_DIR; filename]
      \/ p = [GROUND_TRUTH; key +:+ "_groundtruth.png"]
      \/ p = ["processed_" +:+ key +:+ EXT]
      \/ exists f, p = [FRAME_DIR; f]
  | _ => False
  end.

End Pipeline.

(** ** The other endpoints of [fyp.py] *)

Module Endpoints.
Import Fs Lifecycle RangeServing.

(** [get_summaries()] *)
Definition get_summaries (root : node) : response :=
  match lookup_path root ["summaries.json"] with
  | None => HTTPError 404 "Not found"
  | Some (File d) => FileResponse ["summaries.json"] d "application/json"
  | Some (Dir _) => NotAFile ["summaries.json"]
  end.



End Endpoints.

(** ** The read loop of [export_clip] *)

Module ClipLoop.

(** What the capture delivers from the position sought: each frame with
    the position, in milliseconds, that [cap.get(cv2.CAP_PROP_POS_MSEC)]
    reports once [cap.read()] has delivered it.  The end of the list is
    the read that fails. *)
Fixpoint export_loop {frame : Type} (end_s : Q) (stream : list (frame * Q))
  : list frame :=
  match stream with
  | [] => []
  | (f, pos_msec) :: stream' =>
      if Qlt_bool end_s (pos_msec / 1000) then []
      else f :: export_loop end_s stream'
  end.

End ClipLoop.

(** ** The title card of [create_timestamp_clip] *)

Module TitleCard.

(** [org = ((w - s[0]) // 2, (h + s[1]) // 2)]: the bottom-left corner of
    a text of size [s] on a frame of [w] by [h] pixels. *)
Definition text_origin (w h : Z) (s : Z * Z) : Z * Z :=
  (((w - s.1) `div` 2)%Z, ((h + s.2) `div` 2)%Z).

End TitleCard.

(** ** The key renaming of [load_raft] *)

Module Checkpoint.

(** [k[7:] if k.startswith("module.") else k] *)
Definition new_key (k : string) : string :=
  if String.prefix "module." k
  then String.substring 7 (String.length k - 7) k
  else k.

(** [d[k] = v] on an [OrderedDict]: a key already present keeps its place. *)
Fixpoint od_set {V : Type} (k : string) (v : V) (d : list (string * V))
  : list (string * V) :=
  match d with
  | [] => [(k, v)]
  | (k', v') :: d' =>
      if decide (k' = k) then (k, v) :: d' else (k', v') :: od_set k v d'
  end.

(** The loop over [checkpoint.items()] that fills [new_state]. *)
Definition rename_keys {V : Type} (checkpoint : list (string * V))
  : list (string * V) :=
  fold_left (fun new_state kv => od_set (new_key kv.1) kv.2 new_state)
    checkpoint [].

End Checkpoint.

(** ** Invariants of the file system *)

Module Invariants.
Import Fs.

(** [preserves I m]: if [I] holds of the file system before [m], it holds
    after, whether [m] returns or raises. *)
Definition preserves {A} (I : node -> Prop) (m : M A) : Prop :=
  forall w r w', m w = (r, w') -> I (w_fs w) -> I (w_fs w').

(** The paths the code writes and removes have one or two components. *)
Definition shallow (p : path) : Prop :=
  (exists c, p = [c]) \/ (exists d f, p = [d; f]).

(** The paths written by the frame loop, the clip cutter and the stitcher,
    for given names of the annotated and the combined video. *)
Definition step_path (out_full out_combined p : path) : Prop :=
  p = out_full
  \/ (exists f, p = [Lifecycle.FRAME_DIR; f])
  \/ (exists f, p = [Lifecycle.CLIP_DIR; f])
  \/ (exists text, p = ["ts_" +:+ text +:+ ".mp4"])
  \/ p = out_combined.

(** The file of the [i]-th clip: [os.path.join(CLIP_DIR, f"clip_{i:02d}{EXT}")]. *)
Definition clip_name (i : Z) : string :=
  "clip_" +:+ Pipeline.zfill 2 i +:+ Lifecycle.EXT.

Definition clip_path (i : Z) : path := [Lifecycle.CLIP_DIR; clip_name i].

End Invariants.

(** ** Sample inputs *)

Module Samples.
Import Fs Pipeline.

Definition sample_root : node :=
  Dir [("originals", Dir [("a.mp4", File [x01; x02; x03; x04; x05])])].

(** Frames are numbers, one per byte of the upload; the flow between two
    frames exceeds the threshold when the number jumps by more than ten. *)
#[export] Instance sample_collaborators : Collaborators nat := {|
  decode data :=
    match data with
    | [] => None
    | _ :: _ => Some (Video 25 (Z.of_nat (length data)) (map Byte.to_nat data))
    end;
  annotate f := f;
  highlight f := f;
  flow_exceeds p f := (p + 10 <? f)%nat;
  encode_video _ frames := map (fun f => default x00 (Byte.of_nat f)) frames;
  encode_image f := [default x00 (Byte.of_nat f)];
  cut d _ _ := default [] d;
  title_card _ _ := [x00];
  concat_videos ds := List.concat (map (default []) ds);
  plot_labels npz key := if decide (key = "missing") then None else Some npz;
  summarize _ := "summary";
  json_dump _ := [x7b; x7d];
  format_1f q := pretty (Qnum q / Z.pos (Qden q))%Z +:+ ".0"
|}.

(** A working directory with the artifacts of an earlier run for key [k]. *)
Definition used_world : world :=
  World
    (Dir [ ("originals", Dir []);
           ("abnormal_clips", Dir [("clip_01.mp4", File [x01])]);
           ("abnormal_frames", Dir [("frame_000002.jpg", File [x02])]);
           ("groundtruth", Dir [("k_groundtruth.png", File [x03])]);
           ("NWPU_Campus_gt.npz", File [x04]);
           ("processed_k.mp4", File [x05]);
           ("combined_k.mp4", File [x06]);
           ("summaries.json", File [x07]) ])
    [].

(** The same, with a subdirectory left in the clip directory. *)
Definition blocked_world : world :=
  World
    (Dir [ ("originals", Dir []);
           ("abnormal_clips", Dir [("clip_01.mp4", File [x01]); ("sub", Dir [])]);
           ("abnormal_frames", Dir []);
           ("groundtruth", Dir []);
           ("NWPU_Campus_gt.npz", File [x04]);
           ("processed_k.mp4", File [x05]) ])
    [].

(** The working directory of [main.py] with the input video and the clips
    of an earlier run. *)
Definition script_world : world :=
  World
    (Dir [ ("D001_03.avi", File [x01; x20; x21; x50; x51]);
           ("abnormal_clips",
            Dir [("clip_01.mp4", File [x01]); ("clip_02.mp4", File [x02])]) ])
    [].

End Samples.

(** * Facts *)

(** ** Comparisons *)

Lemma Qlt_bool_iff x y : Qlt_bool x y = true <-> x < y.
Proof.
  unfold Qlt_bool. rewrite negb_true_iff. split.
  - intros H. apply Qnot_le_lt. intros Hle.
    apply Qle_bool_iff in Hle. congruence.
  - intros H. destruct (Qle_bool y x) eqn:E; [|reflexivity].
    apply Qle_bool_iff in E. exfalso. exact (Qlt_not_le _ _ H E).
Qed.

Lemma Qlt_bool_false x y : Qlt_bool x y = false <-> y <= x.
Proof. unfold Qlt_bool. rewrite negb_false_iff. apply Qle_bool_iff. Qed.


(** ** The sort *)

Lemma sort_insert_perm x l : sort_insert x l ≡ₚ x :: l.
Proof.
  induction l as [|y l IH]; simpl; [reflexivity|].
  destruct (Qlt_bool y x); [|reflexivity].
  rewrite IH. apply Permutation_swap.
Qed.

Lemma py_sort_perm l : py_sort l ≡ₚ l.
Proof.
  induction l as [|x l IH]; simpl; [reflexivity|].
  rewrite sort_insert_perm. by rewrite IH.
Qed.

Lemma sort_insert_ascending x l : ascending l -> ascending (sort_insert x l).
Proof.
  unfold ascending. induction l as [|y l IH]; simpl; intros Hl.
  - repeat constructor.
  - inversion Hl as [|? ? Hl' Hy]; subst.
    destruct (Qlt_bool y x) eqn:E.
    + apply Qlt_bool_iff in E. constructor; [by apply IH|].
      rewrite sort_insert_perm. constructor; [by apply Qlt_le_weak | done].
    + apply Qlt_bool_false in E. constructor; [done|].
      constructor; [done|].
      eapply Forall_impl; [exact Hy|]. intros z Hz. simpl in Hz.
      by eapply Qle_trans.
Qed.

Lemma py_sort_ascending l : ascending (py_sort l).
Proof.
  induction l as [|x l IH]; simpl; [constructor|].
  by apply sort_insert_ascending.
Qed.

Lemma py_sort_nil_inv l : py_sort l = [] -> l = [].
Proof.
  intros H. apply Permutation_nil. by rewrite <- H, py_sort_perm.
Qed.

(** A list already in ascending order is left as it is. *)
Lemma py_sort_ascending_id l : ascending l -> py_sort l = l.
Proof.
  unfold ascending. induction 1 as [|x l Hl IH Hx]; simpl; [done|].
  rewrite IH. destruct l as [|y l]; simpl; [done|].
  inversion Hx as [|? ? Hxy _]; subst.
  apply Qlt_bool_false in Hxy. by rewrite Hxy.
Qed.

(** ** The segmenter *)

Section SegmenterFacts.
Import Segmenter.

Variable g : Q.








End SegmenterFacts.

Section SegmenterClaims.
Import Segmenter.





(** C10. [find_abnormal_segments] mutates its argument: for a non-empty
    list at [r], after the call the list at [r] is the ascending
    rearrangement of the original, the returned segments are computed from
    that sorted list, and no other list of the heap changes. *)
Theorem find_abnormal_segments_sorts_in_place (h : heap) (r : loc) (ts : list Q) (g : Q) :
  h !! r = Some ts -> ts <> [] ->
  exists segs h' sorted,
    find_abnormal_segments r g h = Some (segs, h')
    /\ h' !! r = Some sorted
    /\ ascending sorted /\ sorted ≡ₚ ts
    /\ segs = segments_of_sorted sorted g
    /\ (forall r' : loc, r' <> r -> h' !! r' = h !! r').
Proof.
  intros Hr Hne. unfold find_abnormal_segments. rewrite Hr.
  destruct ts as [|t ts]; [done|].
  eexists _, _, (py_sort (t :: ts)). split; [reflexivity|].
  split; [by rewrite lookup_insert_eq|].
  split; [apply py_sort_ascending|].
  split; [apply py_sort_perm|].
  split; [done|].
  intros r' Hr'. by rewrite lookup_insert_ne.
Qed.

Lemma find_abnormal_segments_sorts_in_place_witness :
  exists segs h' sorted,
    find_abnormal_segments 7%nat (1 # 2) {[7%nat := [10; 1; 3 # 2; 1; 6]]}
      = Some (segs, h')
    /\ h' !! 7%nat = Some sorted
    /\ ascending sorted /\ sorted ≡ₚ [10; 1; 3 # 2; 1; 6]
    /\ segs = segments_of_sorted sorted (1 # 2)
    /\ (forall r' : loc, r' <> 7%nat ->
          h' !! r' = ({[7%nat := [10; 1; 3 # 2; 1; 6]]} : heap) !! r').
Proof.
  apply (find_abnormal_segments_sorts_in_place
           {[7%nat := [10; 1; 3 # 2; 1; 6]]} 7%nat [10; 1; 3 # 2; 1; 6] (1 # 2)).
  - reflexivity.
  - discriminate.
Defined.

(** The caller sees the new order: here the list at [7] has changed. *)
Example find_abnormal_segments_reorders :
  (snd <$> find_abnormal_segments 7%nat (1 # 2) {[7%nat := [10; 1; 3 # 2; 1; 6]]})
    ≫= (fun h' => h' !! 7%nat)
  = Some [1; 1; 3 # 2; 6; 10].
Proof. reflexivity. Qed.

End SegmenterClaims.

(** ** Margins *)

Section MarginClaims.
Import Margin.

Lemma py_max_Qmax a b : py_max a b = Qmax a b.
Proof.
  unfold py_max, Qmax, GenericMinMax.gmax.
  destruct (Qcompare_spec a b) as [H|H|H], (Qlt_bool a b) eqn:E; try done.
  - apply Qlt_bool_iff in E. rewrite H in E. by apply Qlt_irrefl in E.
  - apply Qlt_bool_false in E. exfalso. exact (Qlt_not_le _ _ H E).
  - apply Qlt_bool_iff in E. exfalso. exact (Qlt_not_le _ _ H (Qlt_le_weak _ _ E)).
Qed.

Lemma py_min_Qmin a b : py_min a b = Qmin a b.
Proof.
  unfold py_min, Qmin, GenericMinMax.gmin.
  destruct (Qcompare_spec a b) as [H|H|H], (Qlt_bool b a) eqn:E; try done.
  - apply Qlt_bool_iff in E. rewrite H in E. by apply Qlt_irrefl in E.
  - apply Qlt_bool_iff in E. exfalso. exact (Qlt_not_le _ _ H (Qlt_le_weak _ _ E)).
  - apply Qlt_bool_false in E. exfalso. exact (Qlt_not_le _ _ H E).
Qed.

Lemma py_max_cases a b : (a < b /\ py_max a b = b) \/ (b <= a /\ py_max a b = a).
Proof.
  unfold py_max. destruct (Qlt_bool a b) eqn:E.
  - left. by apply Qlt_bool_iff in E.
  - right. by apply Qlt_bool_false in E.
Qed.

Lemma py_min_cases a b : (b < a /\ py_min a b = b) \/ (a <= b /\ py_min a b = a).
Proof.
  unfold py_min. destruct (Qlt_bool b a) eqn:E.
  - left. by apply Qlt_bool_iff in E.
  - right. by apply Qlt_bool_false in E.
Qed.

(** C5. For a segment [(s, e)] with [0 <= s <= e <= L] and a margin
    [m >= 0], the bounds computed before the clip is cut are
    [(max(0, s - m), min(L, e + m))], and they satisfy
    [0 <= start <= end <= L]. *)
Theorem margined_within_video (s e m L : Q) :
  0 <= s -> s <= e -> e <= L -> 0 <= m ->
  margined m L (s, e) = (Qmax 0 (s - m), Qmin L (e + m))
  /\ 0 <= (margined m L (s, e)).1
  /\ (margined m L (s, e)).1 <= (margined m L (s, e)).2
  /\ (margined m L (s, e)).2 <= L.
Proof.
  intros H0s Hse HeL Hm. unfold margined. cbn [fst snd].
  split; [by rewrite py_max_Qmax, py_min_Qmin|].
  destruct (py_max_cases 0 (s - m)) as [[? ->]|[? ->]],
           (py_min_cases L (e + m)) as [[? ->]|[? ->]]; repeat split; lra.
Qed.

Lemma margined_within_video_witness :
  margined MARGIN_S 20 (3, 17) = (Qmax 0 (3 - MARGIN_S), Qmin 20 (17 + MARGIN_S))
  /\ 0 <= (margined MARGIN_S 20 (3, 17)).1
  /\ (margined MARGIN_S 20 (3, 17)).1 <= (margined MARGIN_S 20 (3, 17)).2
  /\ (margined MARGIN_S 20 (3, 17)).2 <= 20.
Proof.
  apply (margined_within_video 3 17 MARGIN_S 20); unfold MARGIN_S; lra.
Defined.

Example margined_clamps : margined MARGIN_S 20 (3, 17) = (0, 20).
Proof. reflexivity. Qed.

End MarginClaims.

(** ** Range serving *)

Section RangeFacts.
Import Fs RangeServing Samples.
Local Open Scope Z_scope.

(** *** Strings *)

Lemma append_cons c (s t : string) : String c s +:+ t = String c (s +:+ t).
Proof. reflexivity. Qed.

Lemma append_nil_l (s : string) : EmptyString +:+ s = s.
Proof. reflexivity. Qed.

Lemma append_nil_r (s : string) : s +:+ EmptyString = s.
Proof. induction s as [|c s IH]; [done|]. by rewrite append_cons, IH. Qed.

Lemma append_assoc (s t u : string) : (s +:+ t) +:+ u = s +:+ t +:+ u.
Proof. induction s as [|c s IH]; [done|]. by rewrite !append_cons, IH. Qed.

(** *** The pattern *)

Lemma all_digits_nil : all_digits EmptyString.
Proof. constructor. Qed.

Lemma all_digits_cons c s :
  all_digits (String c s) <-> is_digit c = true /\ all_digits s.
Proof.
  unfold all_digits. simpl.
  apply (Forall_cons (fun a => is_digit a = true)).
Qed.

Lemma strip_prefix_app p s : strip_prefix p (p +:+ s) = Some s.
Proof.
  induction p as [|a p IH]; [done|].
  rewrite append_cons. simpl. by rewrite decide_True.
Qed.



Lemma span_digits_app ds rest :
  all_digits ds ->
  span_digits (ds +:+ rest) = (ds +:+ (span_digits rest).1, (span_digits rest).2).
Proof.
  induction ds as [|c ds IH]; intros H.
  - rewrite !append_nil_l. by destruct (span_digits rest).
  - apply all_digits_cons in H as [Hc Hds].
    rewrite !append_cons. simpl. by rewrite Hc, (IH Hds).
Qed.

(** The groups found on a header of the format. *)
Lemma re_match_range_format sd ed rest :
  sd <> EmptyString -> all_digits sd -> all_digits ed ->
  re_match_range ("bytes=" +:+ sd +:+ "-" +:+ ed +:+ rest)
  = Some (sd, ed +:+ (span_digits rest).1).
Proof.
  intros Hne Hsd Hed. unfold re_match_range.
  rewrite strip_prefix_app, (span_digits_app sd _ Hsd).
  change (span_digits ("-" +:+ ed +:+ rest)) with (EmptyString, "-" +:+ ed +:+ rest).
  cbn [fst snd]. rewrite append_nil_r.
  destruct sd as [|c sd]; [done|].
  change ("-" +:+ ed +:+ rest) with (String "-" (ed +:+ rest)).
  cbv iota beta. by rewrite (span_digits_app ed _ Hed).
Qed.

Lemma re_match_range_exact sd ed :
  sd <> EmptyString -> all_digits sd -> all_digits ed ->
  re_match_range ("bytes=" +:+ sd +:+ "-" +:+ ed) = Some (sd, ed).
Proof.
  intros Hne Hsd Hed.
  pose proof (re_match_range_format sd ed EmptyString Hne Hsd Hed) as H.
  change (span_digits EmptyString).1 with EmptyString in H.
  by rewrite !append_nil_r in H.
Qed.



(** *** The body streamed by [iterfile] *)




(** More fuel than [remaining] changes nothing: the loop has stopped. *)
Lemma iterfile_loop_fuel cs : (0 < cs) -> forall fuel1 fuel2 f remaining,
  (Z.to_nat remaining <= fuel1)%nat -> (Z.to_nat remaining <= fuel2)%nat ->
  iterfile_loop cs fuel1 f remaining = iterfile_loop cs fuel2 f remaining.
Proof.
  intros Hcs. induction fuel1 as [|fuel1 IH]; intros fuel2 f remaining H1 H2.
  - destruct fuel2 as [|fuel2]; [done|]. cbn [iterfile_loop].
    destruct (0 <? remaining) eqn:Hrem; [apply Z.ltb_lt in Hrem; lia|done].
  - destruct fuel2 as [|fuel2]; cbn [iterfile_loop];
      destruct (0 <? remaining) eqn:Hrem; try done;
      apply Z.ltb_lt in Hrem; [lia|].
    destruct (read (Z.min cs remaining) f) as [chunk f'].
    destruct chunk as [|b chunk]; [done|]. f_equal.
    apply IH; cbn [length]; lia.
Qed.


Lemma iterfile_nonpositive data start length :
  length <= 0 -> iterfile data start length = [].
Proof.
  intros H. unfold iterfile. by replace (Z.to_nat length) with 0%nat by lia.
Qed.

(** *** [int] and [str] *)

Lemma int_acc_app s t acc : int_acc acc (s +:+ t) = int_acc (int_acc acc s) t.
Proof.
  revert acc. induction s as [|c s IH]; intros acc; [done|].
  rewrite append_cons. simpl. apply IH.
Qed.



Lemma pretty_N_char_digit (x : N) :
  (x < 10)%N ->
  is_digit (pretty_N_char x) = true /\ digit_value (pretty_N_char x) = Z.of_N x.
Proof.
  intros H.
  assert (x = 0 \/ x = 1 \/ x = 2 \/ x = 3 \/ x = 4 \/ x = 5 \/ x = 6
          \/ x = 7 \/ x = 8 \/ x = 9)%N as Hx by lia.
  repeat (destruct Hx as [->|Hx]; [done|]). by subst x.
Qed.

(** Reading back the digits that [pretty_N_go] puts in front of [s]. *)
Lemma int_acc_pretty_N_go (x : N) : forall s,
  int_acc 0 (pretty_N_go x s) = int_acc (Z.of_N x) s.
Proof.
  induction (N.lt_wf_0 x) as [x _ IH]; intros s.
  destruct (decide (x = 0%N)) as [->|Hx]; [done|].
  rewrite pretty_N_go_step by lia.
  rewrite IH by (apply N.div_lt; lia). cbn [int_acc].
  destruct (pretty_N_char_digit (x `mod` 10)) as [_ ->];
    [apply N.mod_lt; lia|].
  f_equal. rewrite N2Z.inj_div, N2Z.inj_mod. change (Z.of_N 10) with 10.
  pose proof (Z.div_mod (Z.of_N x) 10). lia.
Qed.

Lemma all_digits_pretty_N_go (x : N) : forall s,
  all_digits s -> all_digits (pretty_N_go x s).
Proof.
  induction (N.lt_wf_0 x) as [x _ IH]; intros s Hs.
  destruct (decide (x = 0%N)) as [->|Hx]; [done|].
  rewrite pretty_N_go_step by lia.
  apply IH; [apply N.div_lt; lia|].
  apply all_digits_cons. split; [|done].
  apply pretty_N_char_digit, N.mod_lt. lia.
Qed.

Lemma pretty_N_go_nonempty (x : N) : forall s,
  s <> EmptyString -> pretty_N_go x s <> EmptyString.
Proof.
  induction (N.lt_wf_0 x) as [x _ IH]; intros s Hs.
  destruct (decide (x = 0%N)) as [->|Hx]; [done|].
  rewrite pretty_N_go_step by lia.
  apply IH; [apply N.div_lt; lia|done].
Qed.

(** [int(str(n)) == n], and [str(n)] is a non-empty run of digits, for
    [n >= 0]. *)
Lemma str_digits (n : Z) :
  0 <= n -> int (str n) = n /\ all_digits (str n) /\ str n <> EmptyString.
Proof.
  intros Hn. unfold str, int, pretty, pretty_Z.
  destruct n as [|q|q]; [by repeat split; [repeat constructor|]| |lia].
  unfold pretty, pretty_positive, pretty, pretty_N.
  rewrite decide_False by done.
  split; [apply int_acc_pretty_N_go|].
  split; [apply all_digits_pretty_N_go; constructor|].
  rewrite pretty_N_go_step by lia.
  by apply pretty_N_go_nonempty.
Qed.

(** *** The endpoint *)

Lemma range_file_on_match root req p media_type data h g1 g2 :
  lookup_path root p = Some (File data) ->
  headers_get "range" (headers req) = Some h ->
  re_match_range h = Some (g1, g2) ->
  _range_file root req p media_type = partial_response data media_type g1 g2.
Proof.
  intros Hp Hh Hm. unfold _range_file. rewrite Hp, Hh.
  destruct h as [|c h]; [done|]. by rewrite Hm.
Qed.




(** The response to a header of the format, with the end as the code
    clamps it. *)
Lemma range_file_on_format root req p media_type data sd ed :
  lookup_path root p = Some (File data) ->
  headers_get "range" (headers req) = Some ("bytes=" +:+ sd +:+ "-" +:+ ed) ->
  sd <> EmptyString -> all_digits sd -> all_digits ed ->
  let file_size := Z.of_nat (length data) in
  let start := int sd in
  let end_ := if decide (ed = EmptyString) then file_size - 1
              else Z.min (int ed) (file_size - 1) in
  _range_file root req p media_type
  = StreamingResponse 206
      [ ("Content-Range",
         "bytes " +:+ str start +:+ "-" +:+ str end_ +:+ "/" +:+ str file_size);
        ("Accept-Ranges", "bytes");
        ("Content-Length", str (end_ - start + 1)) ]
      media_type (iterfile data start (end_ - start + 1))
  /\ end_ <= file_size - 1.
Proof.
  intros Hp Hh Hne Hsd Hed file_size start end_.
  pose proof (re_match_range_exact sd ed Hne Hsd Hed) as Hm.
  rewrite (range_file_on_match _ _ _ _ _ _ _ _ Hp Hh Hm).
  unfold partial_response. fold file_size. fold start.
  assert (Hend : Z.min (match ed with
                        | EmptyString => file_size - 1
                        | String _ _ => int ed
                        end) (file_size - 1) = end_).
  { unfold end_. destruct ed as [|c ed'].
    - rewrite decide_True by done. lia.
    - by rewrite decide_False by done. }
  rewrite Hend. split; [done|]. unfold end_. case_decide; lia.
Qed.





(** The request [bytes=<file_size>-]: 206 with an empty body and a
    Content-Length of zero. *)
Lemma range_file_at_size (root : node) (req : request) (p : path)
    (media_type : string) (data : list byte) :
  lookup_path root p = Some (File data) ->
  headers_get "range" (headers req)
    = Some ("bytes=" +:+ str (Z.of_nat (length data)) +:+ "-") ->
  let file_size := Z.of_nat (length data) in
  _range_file root req p media_type
  = StreamingResponse 206
      [ ("Content-Range",
         "bytes " +:+ str file_size +:+ "-" +:+ str (file_size - 1)
           +:+ "/" +:+ str file_size);
        ("Accept-Ranges", "bytes");
        ("Content-Length", "0") ]
      media_type [].
Proof.
  intros Hp Hh file_size.
  destruct (str_digits file_size) as (Hint & Hdig & Hne); [unfold file_size; lia|].
  destruct (range_file_on_format root req p media_type data
              (str file_size) EmptyString Hp Hh Hne Hdig all_digits_nil)
    as [Hresp _].
  fold file_size in Hresp. rewrite Hint in Hresp.
  rewrite decide_True in Hresp by done.
  replace (file_size - 1 - file_size + 1) with 0 in Hresp by lia.
  by rewrite iterfile_nonpositive in Hresp by lia.
Qed.

Example range_file_at_size_5 :
  _range_file sample_root (Request [("range", "bytes=5-")])
    ["originals"; "a.mp4"] "video/mp4"
  = StreamingResponse 206
      [ ("Content-Range", "bytes 5-4/5");
        ("Accept-Ranges", "bytes");
        ("Content-Length", "0") ]
      "video/mp4" [].
Proof. reflexivity. Qed.

End RangeFacts.

(** ** The file system *)

Section FsFacts.
Import Fs.

Lemma assoc_map_update (d : string) (g : node -> node) top c :
  assoc c (map (fun e : string * node =>
                  if decide (e.1 = d) then (e.1, g e.2) else e) top)
  = if decide (c = d) then g <$> assoc c top else assoc c top.
Proof.
  induction top as [|[c' n] top IH]; simpl; [by case_decide|].
  repeat (case_decide; simpl in *; simplify_eq); try done.
Qed.

Lemma assoc_filter_ne (f : string) es c :
  assoc c (filter (fun e : string * node => e.1 <> f) es)
  = if decide (c = f) then None else assoc c es.
Proof.
  induction es as [|[c' n] es IH]; [by case_decide|].
  rewrite filter_cons. simpl.
  repeat (case_decide; simpl in *; simplify_eq); try done.
Qed.

Lemma assoc_put_eq c n es : assoc c (put c n es) = Some n.
Proof.
  induction es as [|[c' n'] es IH]; simpl; [by rewrite decide_True|].
  case_decide; simpl; [by rewrite decide_True|]. by rewrite decide_False.
Qed.

Lemma assoc_put_ne c c' n es : c <> c' -> assoc c' (put c n es) = assoc c' es.
Proof.
  intros Hne. induction es as [|[c0 n0] es IH]; simpl; [by rewrite decide_False|].
  repeat (case_decide; simpl in *; simplify_eq); try done.
Qed.

Lemma without_nil es : without [] es = es.
Proof.
  unfold without. induction es as [|e es IH]; [done|].
  rewrite filter_cons_True by apply not_elem_of_nil. by rewrite IH.
Qed.

Lemma without_cons f names es :
  without names (filter (fun e : string * node => e.1 <> f) es)
  = without (f :: names) es.
Proof.
  unfold without. rewrite list_filter_filter. apply list_filter_iff.
  intros e. rewrite not_elem_of_cons. tauto.
Qed.

Lemma without_all es : without (map fst es) es = [].
Proof.
  unfold without.
  assert (H : forall names : list string,
            Forall (fun e : string * node => e.1 ∈ names) es ->
                            filter (fun e : string * node => e.1 ∉ names) es = []).
  { intros names. induction 1 as [|e es He _ IH]; [done|].
    rewrite filter_cons_False by tauto. exact IH. }
  apply H. apply Forall_forall. intros e He.
  apply list_elem_of_fmap. by exists e.
Qed.

(** *** Inversion of the monad *)

Lemma bind_Ok {A B} (m : M A) (k : A -> M B) w b w' :
  bind m k w = (Ok b, w') ->
  exists a w1, m w = (Ok a, w1) /\ k a w1 = (Ok b, w').
Proof.
  unfold bind. destruct (m w) as [[a|e] w1]; [eauto|done].
Qed.

Lemma bind_Raise {A B} (m : M A) (k : A -> M B) w e w' :
  m w = (Raise e, w') -> bind m k w = (Raise e, w').
Proof. unfold bind. by intros ->. Qed.

Lemma bind_step {A B} (m : M A) (k : A -> M B) w a w1 :
  m w = (Ok a, w1) -> bind m k w = k a w1.
Proof. unfold bind. by intros ->. Qed.

Lemma listdir_Ok p w names w' :
  listdir p w = (Ok names, w') ->
  w' = w /\ exists es, lookup_path (w_fs w) p = Some (Dir es) /\ names = map fst es.
Proof.
  unfold listdir, bind, get_fs, ret, raise.
  destruct (lookup_path (w_fs w) p) as [[data|es]|]; try done.
  intros [= <- <-]. eauto.
Qed.

Lemma os_remove_Ok p w w' :
  os_remove p w = (Ok tt, w') ->
  (exists data, lookup_path (w_fs w) p = Some (File data))
  /\ w' = World (remove_path (w_fs w) p) (w_trace w ++ [EvRemove p]).
Proof.
  unfold os_remove, bind, get_fs, set_fs, emit, ret, raise.
  destruct (lookup_path (w_fs w) p) as [[data|es]|]; try done.
  simpl. intros [= <-]. eauto.
Qed.

Lemma remove_path_two d f top :
  remove_path (Dir top) [d; f]
  = Dir (map (fun e : string * node =>
                if decide (e.1 = d) then (e.1, remove_path e.2 [f]) else e) top).
Proof. reflexivity. Qed.

Lemma remove_path_one f top :
  remove_path (Dir top) [f] = Dir (filter (fun e : string * node => e.1 <> f) top).
Proof. reflexivity. Qed.

Lemma lookup_path_one n d x :
  lookup_path n [d] = Some x -> exists top, n = Dir top /\ assoc d top = Some x.
Proof.
  destruct n as [data|top]; simpl; [done|].
  destruct (assoc d top) as [n'|] eqn:E; [|done]. intros [= <-]. eauto.
Qed.

End FsFacts.

(** ** Cleanup *)

Section LifecycleFacts.
Import Fs Lifecycle.

(** The inner loop of the first sweep: the files named are gone from [d],
    the other entries of the working directory are as before. *)
Lemma remove_each_in_dir d names : forall w w' top es,
  for_each (fun f => os_remove [d; f]) names w = (Ok tt, w') ->
  w_fs w = Dir top -> assoc d top = Some (Dir es) ->
  exists top', w_fs w' = Dir top'
    /\ assoc d top' = Some (Dir (without names es))
    /\ (forall c, c <> d -> assoc c top' = assoc c top).
Proof.
  induction names as [|f names IH]; intros w w' top es Hrun Hfs Hd.
  - injection Hrun as <-. exists top. by rewrite without_nil.
  - cbn [for_each] in Hrun.
    apply bind_Ok in Hrun as ([] & w1 & Hrm & Hrun).
    apply os_remove_Ok in Hrm as [_ ->]. rewrite Hfs in Hrun.
    rewrite remove_path_two in Hrun.
    match type of Hrun with
    | for_each _ _ {| w_fs := Dir ?t1 |} = _ =>
        assert (Hd1 : assoc d t1
                      = Some (Dir (filter (fun e : string * node => e.1 <> f) es)))
    end.
    { rewrite (assoc_map_update d (fun n => remove_path n [f])).
      rewrite decide_True by done. by rewrite Hd. }
    destruct (IH _ _ _ _ Hrun eq_refl Hd1) as (top' & Hfs' & Hd' & Hother).
    exists top'. split; [done|]. split; [by rewrite Hd', without_cons|].
    intros c Hc.
    rewrite (Hother c Hc), (assoc_map_update d (fun n => remove_path n [f])).
    by rewrite decide_False.
Qed.

Lemma clean_one_dir d w w' :
  bind (listdir [d]) (for_each (fun f => os_remove [d; f])) w = (Ok tt, w') ->
  exists top top', w_fs w = Dir top /\ w_fs w' = Dir top'
    /\ assoc d top' = Some (Dir [])
    /\ (forall c, c <> d -> assoc c top' = assoc c top).
Proof.
  intros Hrun. apply bind_Ok in Hrun as (names & w1 & Hls & Hrun).
  apply listdir_Ok in Hls as (-> & es & Hes & ->).
  apply lookup_path_one in Hes as (top & Hfs & Hd).
  destruct (remove_each_in_dir _ _ _ _ _ _ Hrun Hfs Hd) as (top' & ? & Hd' & ?).
  rewrite without_all in Hd'. eauto 10.
Qed.

(** The second sweep: the stale names are gone from the working directory,
    its subdirectories are untouched. *)
Lemma remove_stale key names : forall w w' top,
  for_each (fun f => if stale key f then os_remove [f] else ret tt) names w
    = (Ok tt, w') ->
  w_fs w = Dir top ->
  exists top', w_fs w' = Dir top'
    /\ top' = without (filter (fun f => stale key f = true) names) top
    /\ (forall c es, assoc c top = Some (Dir es) -> assoc c top' = Some (Dir es)).
Proof.
  induction names as [|f names IH]; intros w w' top Hrun Hfs.
  - injection Hrun as <-. exists top. by rewrite filter_nil, without_nil.
  - cbn [for_each] in Hrun.
    apply bind_Ok in Hrun as ([] & w1 & Hrm & Hrun).
    rewrite filter_cons. destruct (stale key f) eqn:Hstale.
    + apply os_remove_Ok in Hrm as [[data Hf] ->]. rewrite Hfs in Hrun, Hf.
      rewrite remove_path_one in Hrun.
      apply lookup_path_one in Hf as (? & [= <-] & Hf).
      destruct (IH _ _ _ Hrun eq_refl) as (top' & Hfs' & -> & Hdirs).
      eexists. split; [exact Hfs'|]. rewrite decide_True by done.
      split; [by rewrite without_cons|].
      intros c es Hc. apply Hdirs. rewrite assoc_filter_ne.
      case_decide; [congruence|done].
    + injection Hrm as <-.
      destruct (IH _ _ _ Hrun Hfs) as (top' & Hfs' & -> & Hdirs).
      eexists. split; [exact Hfs'|]. by rewrite decide_False.
Qed.

(** What holds of the working directory when [clean_dirs] returns. *)
Lemma clean_dirs_Ok key w w' :
  clean_dirs key w = (Ok tt, w') ->
  exists top', w_fs w' = Dir top'
    /\ assoc CLIP_DIR top' = Some (Dir [])
    /\ assoc FRAME_DIR top' = Some (Dir [])
    /\ assoc GROUND_TRUTH top' = Some (Dir [])
    /\ Forall (fun e : string * node => stale key e.1 = false) top'.
Proof.
  unfold clean_dirs. intros Hrun.
  apply bind_Ok in Hrun as ([] & w3 & Hsweep & Hrun).
  cbn [for_each] in Hsweep.
  apply bind_Ok in Hsweep as ([] & w1 & H1 & Hsweep).
  apply bind_Ok in Hsweep as ([] & w2 & H2 & Hsweep).
  apply bind_Ok in Hsweep as ([] & w3' & H3 & Hsweep).
  injection Hsweep as ->.
  apply clean_one_dir in H1 as (t0 & t1 & _ & Hw1 & Hc1 & _).
  apply clean_one_dir in H2 as (t1' & t2 & Hw1' & Hw2 & Hf2 & Ho2).
  apply clean_one_dir in H3 as (t2' & t3 & Hw2' & Hw3 & Hg3 & Ho3).
  rewrite Hw1 in Hw1'. injection Hw1' as <-.
  rewrite Hw2 in Hw2'. injection Hw2' as <-.
  apply bind_Ok in Hrun as (names & w4 & Hls & Hrun).
  apply listdir_Ok in Hls as (-> & es & Hes & ->).
  rewrite Hw3 in Hes. injection Hes as <-.
  destruct (remove_stale _ _ _ _ _ Hrun Hw3) as (top' & Hfs' & -> & Hdirs).
  eexists. split; [exact Hfs'|].
  split; [apply Hdirs; by rewrite Ho3, Ho2|].
  split; [apply Hdirs; by rewrite Ho3|].
  split; [by apply Hdirs|].
  apply Forall_forall. intros e He.
  apply list_elem_of_filter in He as [Hnot He].
  destruct (stale key e.1) eqn:Hstale; [|done].
  exfalso. apply Hnot. apply list_elem_of_filter. split; [done|].
  apply list_elem_of_fmap. by exists e.
Qed.

End LifecycleFacts.

(** ** Traces *)

Section TraceFacts.
Import Fs.

Lemma emits_ret {A} P (a : A) : emits P (ret a).
Proof. intros w r w' [= <- <-]. exists []. by rewrite app_nil_r. Qed.

Lemma emits_raise {A} P e : emits P (raise (A := A) e).
Proof. intros w r w' [= <- <-]. exists []. by rewrite app_nil_r. Qed.

Lemma emits_get_fs P : emits P get_fs.
Proof. intros w r w' [= <- <-]. exists []. by rewrite app_nil_r. Qed.

Lemma emits_set_fs P n : emits P (set_fs n).
Proof. intros w r w' [= <- <-]. exists []. by rewrite app_nil_r. Qed.

Lemma emits_emit (P : event -> Prop) e : P e -> emits P (emit e).
Proof. intros He w r w' [= <- <-]. exists [e]. split; [done|]. by constructor. Qed.

Lemma emits_bind {A B} P (m : M A) (k : A -> M B) :
  emits P m -> (forall a, emits P (k a)) -> emits P (bind m k).
Proof.
  intros Hm Hk w r w'. unfold bind.
  destruct (m w) as [[a|e] w1] eqn:E; intros Hrun.
  - destruct (Hm _ _ _ E) as (evs1 & Ht1 & H1).
    destruct (Hk a _ _ _ Hrun) as (evs2 & Ht2 & H2).
    exists (evs1 ++ evs2). rewrite Ht2, Ht1, <- app_assoc.
    split; [done|]. by apply Forall_app.
  - injection Hrun as <- <-. by apply (Hm _ _ _ E).
Qed.

Lemma emits_for_each {A} P (body : A -> M unit) l :
  (forall x, emits P (body x)) -> emits P (for_each body l).
Proof.
  intros Hbody. induction l as [|x l IH]; [apply emits_ret|].
  apply emits_bind; [apply Hbody|]. intros _. apply IH.
Qed.

Lemma emits_weaken {A} (P Q : event -> Prop) (m : M A) :
  (forall e, P e -> Q e) -> emits P m -> emits Q m.
Proof.
  intros HPQ Hm w r w' Hrun. destruct (Hm _ _ _ Hrun) as (evs & Ht & H).
  exists evs. split; [done|]. eapply Forall_impl; eauto.
Qed.

Lemma emits_listdir P p : emits P (listdir p).
Proof.
  apply emits_bind; [apply emits_get_fs|]. intros root.
  destruct (lookup_path root p) as [[data|es]|];
    auto using emits_ret, emits_raise.
Qed.

Lemma emits_os_remove (P : event -> Prop) p :
  P (EvRemove p) -> emits P (os_remove p).
Proof.
  intros HP. apply emits_bind; [apply emits_get_fs|]. intros root.
  destruct (lookup_path root p) as [[data|es]|]; try apply emits_raise.
  apply emits_bind; [apply emits_set_fs|]. intros _. by apply emits_emit.
Qed.

Lemma emits_open_write (P : event -> Prop) p data :
  P (EvWrite p) -> emits P (open_write p data).
Proof.
  intros HP. apply emits_bind; [apply emits_get_fs|]. intros root.
  destruct (lookup_path root (parent p)) as [[d|es]|]; try apply emits_raise.
  destruct (lookup_path root p) as [[d|es']|]; try apply emits_raise;
    (apply emits_bind; [apply emits_set_fs|]; intros _; by apply emits_emit).
Qed.

Lemma emits_cv_write (P : event -> Prop) p data :
  P (EvWrite p) -> emits P (cv_write p data).
Proof.
  intros HP. apply emits_bind; [apply emits_get_fs|]. intros root.
  destruct (lookup_path root (parent p)) as [[d|es]|]; try apply emits_ret.
  destruct (lookup_path root p) as [[d|es']|]; try apply emits_ret;
    (apply emits_bind; [apply emits_set_fs|]; intros _; by apply emits_emit).
Qed.

Lemma emits_clean_dirs key : emits is_remove (Lifecycle.clean_dirs key).
Proof.
  unfold Lifecycle.clean_dirs.
  apply emits_bind; [|intros _; apply emits_bind; [apply emits_listdir|intros names]].
  - apply emits_for_each. intros d.
    apply emits_bind; [apply emits_listdir|]. intros names.
    apply emits_for_each. intros f. by apply emits_os_remove.
  - apply emits_for_each. intros f.
    destruct (Lifecycle.stale key f); [by apply emits_os_remove|apply emits_ret].
Qed.

End TraceFacts.

(** ** The processing run *)

Section PipelineFacts.
Import Fs Lifecycle Pipeline.
Context {frame : Type} `{Collaborators frame}.

Lemma read_file_run p w :
  read_file p w = (Ok (match lookup_path (w_fs w) p with
                       | Some (File d) => Some d
                       | _ => None
                       end), w).
Proof. reflexivity. Qed.

Lemma emits_read_file P p : emits P (read_file p).
Proof. intros w r w'. rewrite read_file_run. intros [= <- <-]. exists []. by rewrite app_nil_r. Qed.

(** OpenCV writers always return. *)
Lemma cv_write_returns p data w : exists w', cv_write p data w = (Ok tt, w').
Proof.
  unfold cv_write, bind, get_fs, set_fs, emit, ret.
  destruct (lookup_path (w_fs w) (parent p)) as [[d|es]|]; eauto.
  destruct (lookup_path (w_fs w) p) as [[d|es']|]; eauto.
Qed.

(** *** What is written where *)

Lemma write_path_two d f top data :
  write_path (Dir top) [d; f] data
  = Dir (map (fun e : string * node =>
                if decide (e.1 = d) then (e.1, write_path e.2 [f] data) else e) top).
Proof. reflexivity. Qed.

Lemma lookup_path_two top d f :
  lookup_path (Dir top) [d; f]
  = match assoc d top with
    | Some n => lookup_path n [f]
    | None => None
    end.
Proof. reflexivity. Qed.

Lemma open_write_Ok p data w w' :
  open_write p data w = (Ok tt, w') ->
  (exists es, lookup_path (w_fs w) (parent p) = Some (Dir es))
  /\ w' = World (write_path (w_fs w) p data) (w_trace w ++ [EvWrite p]).
Proof.
  unfold open_write, bind, get_fs, set_fs, emit, ret, raise.
  destruct (lookup_path (w_fs w) (parent p)) as [[d|es]|]; try done.
  destruct (lookup_path (w_fs w) p) as [[d|es']|]; try done;
    simpl; intros [= <-]; eauto.
Qed.

(** A file saved in a directory is read back. *)
Lemma open_write_read d f data w w' :
  open_write [d; f] data w = (Ok tt, w') ->
  lookup_path (w_fs w') [d; f] = Some (File data).
Proof.
  intros Hw. apply open_write_Ok in Hw as [[es Hes] ->]. cbn [w_fs].
  change (parent [d; f]) with [d] in Hes.
  apply lookup_path_one in Hes as (top & -> & Hd).
  rewrite write_path_two, lookup_path_two.
  rewrite (assoc_map_update d (fun n => write_path n [f] data)).
  rewrite decide_True by done. rewrite Hd. simpl.
  by rewrite assoc_put_eq.
Qed.

(** A write in directory [d] leaves the files of another directory alone. *)
Lemma open_write_other d f d' f' data w w' :
  d <> d' ->
  open_write [d; f] data w = (Ok tt, w') ->
  lookup_path (w_fs w') [d'; f'] = lookup_path (w_fs w) [d'; f'].
Proof.
  intros Hne Hw. apply open_write_Ok in Hw as [[es Hes] ->]. cbn [w_fs].
  change (parent [d; f]) with [d] in Hes.
  apply lookup_path_one in Hes as (top & -> & Hd).
  rewrite write_path_two, !lookup_path_two.
  rewrite (assoc_map_update d (fun n => write_path n [f] data)).
  by rewrite decide_False.
Qed.

Lemma plot_Ok file_path key gt w w' :
  plot_and_save_ground_truth_labels file_path key w = (Ok gt, w') ->
  exists png, open_write [GROUND_TRUTH; key +:+ "_groundtruth.png"] png w = (Ok tt, w').
Proof.
  unfold plot_and_save_ground_truth_labels. intros Hrun.
  apply bind_Ok in Hrun as (d & w1 & Hread & Hrun).
  rewrite read_file_run in Hread. injection Hread as <- <-.
  destruct (lookup_path (w_fs w) file_path) as [[npz|es]|]; try done.
  destruct (plot_labels npz key) as [png|]; [|done].
  apply bind_Ok in Hrun as ([] & w1 & Hw & Hret).
  injection Hret as <- <-. eauto.
Qed.

(** After steps 0 to 2 the saved upload is what the capture opens. *)
Lemma prepare_saved key filename upload gt w w' :
  prepare key filename upload w = (Ok gt, w') ->
  lookup_path (w_fs w') [ORIGINAL_DIR; filename] = Some (File upload).
Proof.
  unfold prepare. intros Hrun.
  apply bind_Ok in Hrun as ([] & w0 & _ & Hrun).
  apply bind_Ok in Hrun as ([] & w1 & Hsave & Hplot).
  apply plot_Ok in Hplot as [png Hplot].
  assert (GROUND_TRUTH <> ORIGINAL_DIR) as Hne by done.
  rewrite (open_write_other _ _ ORIGINAL_DIR filename _ _ _ Hne Hplot).
  by eapply open_write_read.
Qed.

(** *** The frame loop *)

(** The loop returns, and the timestamps it has appended are those of
    [anomaly_times]. *)
Lemma frame_loop_returns fps frames : forall st w,
  exists st' w',
    frame_loop fps frames st w = (Ok st', w')
    /\ times st' = times st ++ anomaly_times fps frames (prev st) (idx st).
Proof.
  induction frames as [|frm0 frames IH]; intros [pv ts i wr] w.
  - eexists _, _. split; [reflexivity|]. simpl. by rewrite app_nil_r.
  - cbn [frame_loop anomaly_times prev times idx written].
    destruct pv as [pf|].
    + destruct (flow_exceeds pf (annotate frm0)) eqn:E.
      * destruct (cv_write_returns
                    [FRAME_DIR; "frame_" +:+ zfill 6 (i + 1) +:+ ".jpg"]
                    (encode_image (highlight (annotate frm0))) w) as [w1 Hw].
        rewrite (bind_step _ _ _ _ _ Hw).
        destruct (IH (LoopState (Some (highlight (annotate frm0)))
                        (ts ++ [inject_Z (i + 1) / fps]) (i + 1)
                        (wr ++ [highlight (annotate frm0)])) w1)
          as (st' & w' & Hrun & Htimes).
        eexists _, _. split; [exact Hrun|].
        rewrite Htimes. cbn [prev times idx]. by rewrite <- app_assoc.
      * apply IH.
    + apply IH.
Qed.

Lemma emits_frame_loop (P : event -> Prop) fps frames :
  (forall f, P (EvWrite [FRAME_DIR; f])) ->
  forall st, emits P (frame_loop fps frames st).
Proof.
  intros HP. induction frames as [|frm0 frames IH]; intros st;
    [apply emits_ret|].
  cbn [frame_loop].
  destruct (match prev st with
            | Some p => flow_exceeds p (annotate frm0)
            | None => false
            end); [|apply IH].
  apply emits_bind; [by apply emits_cv_write|]. intros _. apply IH.
Qed.

(** *** Nothing is deleted once cleanup is over *)

Lemma emits_export_clip src start_s end_s dst :
  emits not_remove (export_clip src start_s end_s dst).
Proof.
  apply emits_bind; [apply emits_read_file|]. intros d.
  apply emits_cv_write. by intros [].
Qed.

Lemma emits_cut_clips src vlen segments : forall i,
  emits not_remove (cut_clips src vlen i segments).
Proof.
  induction segments as [|seg segments IH]; intros i; [apply emits_ret|].
  cbn [cut_clips]. destruct (Margin.margined _ _ _) as [start end_].
  apply emits_bind; [apply emits_export_clip|]. intros _.
  apply emits_bind; [apply IH|]. intros rest. apply emits_ret.
Qed.

Lemma emits_stitch_parts fps pairs : emits not_remove (stitch_parts fps pairs).
Proof.
  induction pairs as [|[clip [s e]] pairs IH]; [apply emits_ret|].
  cbn [stitch_parts].
  apply emits_bind.
  - apply emits_bind; [apply emits_cv_write; by intros []|].
    intros _. apply emits_ret.
  - intros tmp. apply emits_bind; [apply IH|]. intros parts. apply emits_ret.
Qed.

Lemma emits_read_all P ps : emits P (read_all ps).
Proof.
  induction ps as [|q ps IH]; [apply emits_ret|].
  cbn [read_all]. apply emits_bind; [apply emits_read_file|]. intros d.
  apply emits_bind; [apply IH|]. intros ds. apply emits_ret.
Qed.

Lemma emits_upload_and_summarize clip_files out fps :
  emits not_remove (upload_and_summarize clip_files out fps).
Proof.
  unfold upload_and_summarize. destruct clip_files as [|c cs]; [apply emits_ret|].
  apply emits_bind.
  { unfold stitch_clips.
    apply emits_bind; [apply emits_stitch_parts|]. intros parts.
    apply emits_bind; [apply emits_cv_write; by intros []|]. intros _.
    apply emits_bind; [apply emits_read_all|]. intros ds.
    apply emits_bind; [apply emits_cv_write; by intros []|]. intros _.
    apply emits_ret. }
  intros combined. apply emits_bind; [apply emits_read_file|]. intros fh.
  apply emits_bind; [apply emits_emit; by intros []|]. intros _.
  apply emits_bind; [apply emits_emit; by intros []|]. intros _.
  apply emits_bind; [apply emits_emit; by intros []|]. intros _.
  apply emits_bind; [apply emits_open_write; by intros []|]. intros _.
  apply emits_ret.
Qed.

Lemma emits_cut_and_summarize out_full out_combined cap :
  emits not_remove (cut_and_summarize out_full out_combined cap).
Proof.
  unfold cut_and_summarize.
  apply emits_bind; [apply emits_cv_write; by intros []|]. intros _.
  apply emits_bind; [apply emits_frame_loop; by intros f []|]. intros st.
  apply emits_bind; [apply emits_cv_write; by intros []|]. intros _.
  apply emits_bind; [apply emits_cut_clips|]. intros clip_files.
  apply emits_bind; [apply emits_upload_and_summarize|]. intros summary.
  apply emits_ret.
Qed.

Lemma emits_analyse key filename gt_file cap :
  emits not_remove (analyse key filename gt_file cap).
Proof.
  unfold analyse. apply emits_bind; [apply emits_cut_and_summarize|].
  intros [clip_files summary]. apply emits_ret.
Qed.

Lemma emits_plot (P : event -> Prop) file_path key :
  P (EvWrite [GROUND_TRUTH; key +:+ "_groundtruth.png"]) ->
  emits P (plot_and_save_ground_truth_labels file_path key).
Proof.
  intros HP. unfold plot_and_save_ground_truth_labels.
  apply emits_bind; [apply emits_read_file|]. intros [npz|]; [|apply emits_raise].
  destruct (plot_labels npz key) as [png|]; [|apply emits_raise].
  apply emits_bind; [by apply emits_open_write|]. intros _. apply emits_ret.
Qed.

Lemma pre_clip_not_remove key filename e :
  pre_clip_event key filename e -> not_remove e.
Proof. destruct e; simpl; try done. by intros _ []. Qed.

(** The trace of steps 0 to 2: deletions first, then the two writes; a
    write is only reached when [clean_dirs] has returned. *)
Lemma prepare_trace key filename upload w r w' :
  prepare key filename upload w = (r, w') ->
  exists removed written,
    w_trace w' = w_trace w ++ removed ++ written
    /\ Forall is_remove removed
    /\ Forall (pre_clip_event key filename) written
    /\ ((exists wc, clean_dirs key w = (Ok tt, wc)
                    /\ w_trace wc = w_trace w ++ removed)
        \/ (written = [] /\ exists e, r = Raise e /\ clean_dirs key w = (Raise e, w'))).
Proof.
  unfold prepare, bind at 1. intros Hrun.
  destruct (clean_dirs key w) as [[[]|e] wc] eqn:Hclean.
  - destruct (emits_clean_dirs key _ _ _ Hclean) as (removed & Ht & Hrm).
    assert (emits (pre_clip_event key filename)
              (bind (open_write [ORIGINAL_DIR; filename] upload) (fun _ =>
                 plot_and_save_ground_truth_labels ["NWPU_Campus_gt.npz"] key)))
      as Hemits.
    { apply emits_bind; [apply emits_open_write; simpl; auto|].
      intros _. apply emits_plot. simpl. auto. }
    destruct (Hemits _ _ _ Hrun) as (written & Ht' & Hwr).
    exists removed, written. rewrite Ht', Ht, <- app_assoc. eauto 10.
  - injection Hrun as <- <-.
    destruct (emits_clean_dirs key _ _ _ Hclean) as (removed & Ht & Hrm).
    exists removed, []. rewrite app_nil_r. eauto 10.
Qed.

(** *** A run without segments *)

Lemma cut_and_summarize_no_segments out_full out_combined cap w :
  run_segments cap = [] ->
  exists w' written,
    cut_and_summarize out_full out_combined cap w = (Ok ([], ""), w')
    /\ w_trace w' = w_trace w ++ written
    /\ Forall (frame_loop_event out_full) written.
Proof.
  intros Hsegs. unfold cut_and_summarize.
  assert (HP : frame_loop_event out_full (EvWrite out_full)) by by left.
  assert (HF : forall f, frame_loop_event out_full (EvWrite [FRAME_DIR; f]))
    by (intros f; right; eauto).
  destruct (cv_write_returns out_full (encode_video (run_fps cap) []) w)
    as [w1 Hw1].
  rewrite (bind_step _ _ _ _ _ Hw1).
  destruct (frame_loop_returns (run_fps cap) (v_frames cap)
              (LoopState None [] 0%Z []) w1) as (st & w2 & Hloop & Htimes).
  rewrite (bind_step _ _ _ _ _ Hloop).
  destruct (cv_write_returns out_full (encode_video (run_fps cap) (written st)) w2)
    as [w3 Hw3].
  rewrite (bind_step _ _ _ _ _ Hw3).
  cbn [times prev idx app] in Htimes.
  unfold run_segments in Hsegs. rewrite <- Htimes in Hsegs. rewrite Hsegs.
  cbn [cut_clips]. unfold bind at 1, ret at 1.
  cbn [upload_and_summarize]. unfold bind, ret.
  destruct (emits_cv_write _ _ _ HP _ _ _ Hw1) as (e1 & Ht1 & H1).
  destruct (emits_frame_loop _ (run_fps cap) (v_frames cap) HF _ _ _ _ Hloop)
    as (e2 & Ht2 & H2).
  destruct (emits_cv_write _ _ _ HP _ _ _ Hw3) as (e3 & Ht3 & H3).
  exists w3, (e1 ++ e2 ++ e3). split; [done|].
  split; [by rewrite Ht3, Ht2, Ht1, <- !app_assoc|].
  by rewrite !Forall_app.
Qed.

Lemma analyse_no_segments key filename gt_file cap w :
  run_segments cap = [] ->
  exists w' written,
    analyse key filename gt_file cap w = (Ok (Response filename [] "" [gt_file]), w')
    /\ w_trace w' = w_trace w ++ written
    /\ Forall (pre_clip_event key filename) written.
Proof.
  intros Hsegs. unfold analyse.
  destruct (cut_and_summarize_no_segments ["processed_" +:+ key +:+ EXT]
              ["combined_" +:+ key +:+ EXT] cap w Hsegs)
    as (w' & written & Hrun & Ht & Hwr).
  exists w', written. rewrite (bind_step _ _ _ _ _ Hrun).
  split; [done|]. split; [done|].
  eapply Forall_impl; [exact Hwr|].
  intros e [->|[f ->]]; simpl; eauto 10.
Qed.

Lemma assoc_app c es1 es2 :
  assoc c (es1 ++ es2)
  = match assoc c es1 with
    | Some n => Some n
    | None => assoc c es2
    end.
Proof.
  induction es1 as [|[c' n'] es1 IH]; simpl; [done|]. by case_decide.
Qed.

Lemma makedirs_run d w r w' :
  makedirs d w = (r, w') ->
  w_trace w' = w_trace w
  /\ forall c, c <> d -> lookup_path (w_fs w') [c] = lookup_path (w_fs w) [c].
Proof.
  unfold makedirs, bind, get_fs, set_fs, ret, raise.
  destruct (w_fs w) as [data|top] eqn:Hfs.
  { intros [= <- <-]. by rewrite Hfs. }
  destruct (assoc d top) as [[data|es]|] eqn:Hd; intros [= <- <-];
    try by rewrite Hfs.
  split; [done|]. intros c Hc. simpl.
  rewrite assoc_app. simpl. rewrite decide_False by done.
  by destruct (assoc c top).
Qed.

(** [main] of [main.py]: without segments nothing is stitched, uploaded
    or summarized. *)
Lemma main_no_segments w r w' :
  run_segments (capture_of (w_fs w) ["D001_03.avi"]) = [] ->
  main w = (r, w') ->
  exists written,
    w_trace w' = w_trace w ++ written
    /\ Forall (frame_loop_event ["processed_main.mp4"]) written.
Proof.
  intros Hsegs. unfold main, bind at 1.
  destruct (makedirs FRAME_DIR w) as [[[]|e] w1] eqn:Hm1.
  2:{ intros [= <- <-]. apply makedirs_run in Hm1 as [-> _].
      exists []. by rewrite app_nil_r. }
  unfold bind at 1.
  destruct (makedirs CLIP_DIR w1) as [[[]|e] w2] eqn:Hm2.
  2:{ intros [= <- <-]. apply makedirs_run in Hm1 as [Ht1 _].
      apply makedirs_run in Hm2 as [-> _].
      exists []. by rewrite app_nil_r. }
  apply makedirs_run in Hm1 as [Ht1 Hl1], Hm2 as [Ht2 Hl2].
  unfold bind at 1, get_fs at 1.
  assert (capture_of (w_fs w2) ["D001_03.avi"]
          = capture_of (w_fs w) ["D001_03.avi"]) as ->.
  { unfold capture_of. by rewrite Hl2, Hl1. }
  destruct (cut_and_summarize_no_segments ["processed_main.mp4"]
              ["combined_abnormal_clips.mp4"] _ w2 Hsegs)
    as (w3 & written & Hrun & Ht3 & Hwr).
  rewrite (bind_step _ _ _ _ _ Hrun). intros [= <- <-].
  exists written. by rewrite Ht3, Ht2, Ht1.
Qed.

Lemma assoc_elem c n es : assoc c es = Some n -> (c, n) ∈ es.
Proof.
  induction es as [|[c' n'] es IH]; simpl; [done|].
  case_decide; [intros [= <-]; subst; by left|].
  intros Hc. right. by apply IH.
Qed.

(** C6. When [clean_dirs(k)] has returned, the clip, frame and
    ground-truth directories have no entry, and no entry of the working
    directory has a name starting with [processed_k] or [combined_k].  In a
    processing run every deletion precedes every other effect, and a write
    is reached only when [clean_dirs] has returned. *)
Theorem clean_dirs_sweeps_before_writes (key : string) (w w' : world) :
  clean_dirs key w = (Ok tt, w') ->
  (forall d, d ∈ [CLIP_DIR; FRAME_DIR; GROUND_TRUTH] ->
             lookup_path (w_fs w') [d] = Some (Dir []))
  /\ (forall f n, lookup_path (w_fs w') [f] = Some n ->
                  startswith ("processed_" +:+ key) f = false
                  /\ startswith ("combined_" +:+ key) f = false)
  /\ (forall filename upload w0 r w1,
        process_video filename upload w0 = (r, w1) ->
        exists removed later,
          w_trace w1 = w_trace w0 ++ removed ++ later
          /\ Forall is_remove removed /\ Forall not_remove later
          /\ (later <> [] ->
              exists wc, clean_dirs (splitext_root filename) w0 = (Ok tt, wc)
                         /\ w_trace wc = w_trace w0 ++ removed)).
Proof.
  intros Hclean.
  destruct (clean_dirs_Ok _ _ _ Hclean) as (top' & Hfs & Hc & Hf & Hg & Hstale).
  rewrite Hfs. split; [|split].
  - intros d Hd. simpl.
    apply elem_of_cons in Hd as [->|Hd]; [by rewrite Hc|].
    apply elem_of_cons in Hd as [->|Hd]; [by rewrite Hf|].
    apply elem_of_cons in Hd as [->|Hd]; [by rewrite Hg|].
    by apply elem_of_nil in Hd.
  - intros f n Hl. apply lookup_path_one in Hl as (top & [= <-] & Hl).
    apply assoc_elem in Hl.
    rewrite Forall_forall in Hstale. specialize (Hstale _ Hl). simpl in Hstale.
    unfold stale in Hstale. by apply orb_false_iff in Hstale.
  - intros filename upload w0 r w1. unfold process_video, bind at 1.
    destruct (prepare (splitext_root filename) filename upload w0)
      as [[gt|e] w2] eqn:Hprep; intros Hrun;
      destruct (prepare_trace _ _ _ _ _ _ Hprep)
        as (removed & written & Ht & Hrm & Hwr & Hcase).
    + assert (emits not_remove
                (bind (read_file [ORIGINAL_DIR; filename]) (fun d =>
                   match d with
                   | None => raise (HTTPException 400)
                   | Some bytes =>
                       match decode bytes with
                       | None => raise (HTTPException 400)
                       | Some cap => analyse (splitext_root filename) filename gt cap
                       end
                   end))) as Hemits.
      { apply emits_bind; [apply emits_read_file|].
        intros [bytes|]; [|apply emits_raise].
        destruct (decode bytes) as [cap|]; [apply emits_analyse|apply emits_raise]. }
      destruct (Hemits _ _ _ Hrun) as (later & Ht' & Hlater).
      exists removed, (written ++ later).
      rewrite Ht', Ht, <- !app_assoc. split; [done|]. split; [done|].
      split.
      { apply Forall_app. split; [|done].
        eapply Forall_impl; [exact Hwr|]. apply pre_clip_not_remove. }
      intros _. destruct Hcase as [Hok|(_ & e & He & _)]; [done|done].
    + injection Hrun as <- <-. exists removed, written.
      split; [done|]. split; [done|]. split.
      { eapply Forall_impl; [exact Hwr|]. apply pre_clip_not_remove. }
      intros Hne. destruct Hcase as [Hok|(Hnil & _)]; [done|done].
Qed.


(** C8. In a run whose segmenter returns no segment, the stitch, upload
    and summary step is skipped: beyond the deletions of cleanup the run
    only writes the saved upload, the ground-truth plot, the annotated
    video and highlighted frames; no combined file is written, nothing is
    uploaded, and the response has no clips and [summary_file] empty.  Once
    steps 0 to 2 have passed, the run returns that response. *)
Theorem no_segments_no_summary (filename : string) (upload : list byte)
    (cap : video frame) (w w' : world) (r : result ProcessVideoResponse) :
  decode upload = Some cap ->
  run_segments cap = [] ->
  process_video filename upload w = (r, w') ->
  let key := splitext_root filename in
  (exists removed written,
     w_trace w' = w_trace w ++ removed ++ written
     /\ Forall is_remove removed
     /\ Forall (pre_clip_event key filename) written
     /\ (EvWrite ["combined_" +:+ key +:+ EXT] ∉ written)
     /\ (forall p, EvUpload p ∉ written)
     /\ (EvGenerate ∉ written))
  /\ (forall gt w2, prepare key filename upload w = (Ok gt, w2) ->
                    r = Ok (Response filename [] "" [gt]))
  /\ (forall resp, r = Ok resp -> summary_file resp = "" /\ clips resp = []).
Proof.
  intros Hdec Hsegs Hrun key.
  assert (Hex : forall written,
            Forall (pre_clip_event key filename) written ->
            (EvWrite ["combined_" +:+ key +:+ EXT] ∉ written)
            /\ (forall p, EvUpload p ∉ written) /\ (EvGenerate ∉ written)).
  { intros written Hwr. rewrite Forall_forall in Hwr.
    split; [|split]; [|intros p|]; intros Hin; specialize (Hwr _ Hin);
      simpl in Hwr; try done.
    destruct Hwr as [Hp|[Hp|[Hp|[f Hp]]]]; done. }
  unfold process_video in Hrun. fold key in Hrun. unfold bind at 1 in Hrun.
  destruct (prepare key filename upload w) as [[gt|e] w2] eqn:Hprep;
    destruct (prepare_trace _ _ _ _ _ _ Hprep)
      as (removed & written & Ht & Hrm & Hwr & _).
  - rewrite (bind_step _ _ _ _ _ (read_file_run _ _)) in Hrun.
    rewrite (prepare_saved _ _ _ _ _ _ Hprep), Hdec in Hrun.
    destruct (analyse_no_segments key filename gt cap w2 Hsegs)
      as (w3 & later & Han & Ht3 & Hlater).
    rewrite Han in Hrun. injection Hrun as <- <-.
    split; [|split].
    + exists removed, (written ++ later).
      rewrite Ht3, Ht, <- !app_assoc.
      assert (Forall (pre_clip_event key filename) (written ++ later)) as Hall
        by (by apply Forall_app).
      destruct (Hex _ Hall) as (? & ? & ?). eauto 10.
    + by intros gt' w2' [= <- <-].
    + by intros resp [= <-].
  - injection Hrun as <- <-. split; [|split]; [|done|done].
    exists removed, written. destruct (Hex _ Hwr) as (? & ? & ?). eauto 10.
Qed.

End PipelineFacts.

Section PipelineSamples.
Import Fs Lifecycle Pipeline Samples.

Lemma clean_dirs_sweeps_before_writes_witness :
  (forall d, d ∈ [CLIP_DIR; FRAME_DIR; GROUND_TRUTH] ->
             lookup_path (w_fs (clean_dirs "k" used_world).2) [d] = Some (Dir []))
  /\ (forall f n, lookup_path (w_fs (clean_dirs "k" used_world).2) [f] = Some n ->
                  startswith ("processed_" +:+ "k") f = false
                  /\ startswith ("combined_" +:+ "k") f = false).
Proof.
  destruct (clean_dirs_sweeps_before_writes (H := sample_collaborators)
              "k" used_world (clean_dirs "k" used_world).2 eq_refl)
    as (Hdirs & Htop & _).
  exact (conj Hdirs Htop).
Defined.

(** What is left after the sweep of [used_world]. *)
Example clean_dirs_used_world :
  clean_dirs "k" used_world
  = (Ok tt,
     World
       (Dir [ ("originals", Dir []);
              ("abnormal_clips", Dir []);
              ("abnormal_frames", Dir []);
              ("groundtruth", Dir []);
              ("NWPU_Campus_gt.npz", File [x04]);
              ("summaries.json", File [x07]) ])
       [ EvRemove ["abnormal_clips"; "clip_01.mp4"];
         EvRemove ["abnormal_frames"; "frame_000002.jpg"];
         EvRemove ["groundtruth"; "k_groundtruth.png"];
         EvRemove ["processed_k.mp4"];
         EvRemove ["combined_k.mp4"] ]).
Proof. reflexivity. Qed.



Lemma no_segments_no_summary_witness :
  (process_video "k.mp4" [x01; x02; x03] used_world).1
  = Ok (Response "k.mp4" [] "" ["k_groundtruth.png"]).
Proof.
  assert (decode [x01; x02; x03] = Some (Video 25 3 [1; 2; 3]%nat)) as Hdec
    by reflexivity.
  assert (run_segments (Video 25 3 [1; 2; 3]%nat) = []) as Hsegs
    by reflexivity.
  assert (process_video "k.mp4" [x01; x02; x03] used_world
          = ((process_video "k.mp4" [x01; x02; x03] used_world).1,
             (process_video "k.mp4" [x01; x02; x03] used_world).2)) as Hrun
    by (vm_compute; reflexivity).
  destruct (no_segments_no_summary "k.mp4" [x01; x02; x03] _ used_world _ _
              Hdec Hsegs Hrun) as (_ & Hret & _).
  apply (Hret "k_groundtruth.png"
           (prepare "k" "k.mp4" [x01; x02; x03] used_world).2).
  vm_compute. reflexivity.
Defined.

(** A run with two anomalous frames, for comparison: one clip, the
    combined file, the upload and the summary. *)
Example run_with_anomalies :
  let '(r, w') := process_video "k.mp4" [x01; x20; x21; x50; x51] used_world in
  r = Ok (Response "k.mp4" ["clip_01.mp4"] "summaries.json" ["k_groundtruth.png"])
  /\ drop 11 (w_trace w')
     = [ EvWrite ["abnormal_clips"; "clip_01.mp4"];
         EvWrite ["ts_0.0s_to_0.0s.mp4"];
         EvWrite ["combined_k.mp4"]; EvWrite ["combined_k.mp4"];
         EvUpload ["combined_k.mp4"]; EvSleep; EvGenerate;
         EvWrite ["summaries.json"] ].
Proof. vm_compute. split; reflexivity. Qed.

End PipelineSamples.

(** * Further properties *)

(** ** The segmenter *)

Section SegmenterMore.
Import Segmenter.








(** X3. On a list that is already in ascending order the call changes
    nothing on the heap: the caller's list keeps its contents, and the
    segments are those of the list as it stands. *)
Theorem find_abnormal_segments_sorted_input (h : heap) (r : loc) (ts : list Q)
    (g : Q) :
  h !! r = Some ts -> ascending ts ->
  find_abnormal_segments r g h = Some (segments_of_sorted ts g, h).
Proof.
  intros Hr Hasc. unfold find_abnormal_segments. rewrite Hr.
  destruct ts as [|t ts]; [done|].
  rewrite (py_sort_ascending_id _ Hasc). by rewrite insert_id.
Qed.

Lemma find_abnormal_segments_sorted_input_witness :
  find_abnormal_segments 7%nat 4 {[7%nat := [1; 5 # 2; 3; 10]]}
  = Some (segments_of_sorted [1; 5 # 2; 3; 10] 4, {[7%nat := [1; 5 # 2; 3; 10]]}).
Proof.
  apply (find_abnormal_segments_sorted_input
           {[7%nat := [1; 5 # 2; 3; 10]]} 7%nat [1; 5 # 2; 3; 10] 4).
  - reflexivity.
  - unfold ascending. repeat constructor; by vm_compute.
Defined.

End SegmenterMore.

(** ** The frame loop and the clips *)

Section PipelineMore.
Import Fs Lifecycle Segmenter Margin Pipeline.
Context {frame : Type} `{Collaborators frame}.



(** The timestamps of [anomaly_times] are frame indices over the frame
    rate, the indices going up. *)
Lemma anomaly_times_indices fps frames : forall pv (i0 : Z),
  exists ids : list Z,
    anomaly_times fps frames pv i0 = map (fun i => inject_Z i / fps) ids
    /\ StronglySorted Z.lt ids
    /\ Forall (fun i => (i0 + (match pv with Some _ => 0 | None => 1 end) < i
                         <= i0 + Z.of_nat (length frames))%Z) ids.
Proof.
  induction frames as [|frm0 frames IH]; intros pv i0.
  - exists []. repeat split; constructor.
  - cbn [anomaly_times length].
    assert (Hweak : forall pv', exists ids : list Z,
              anomaly_times fps frames pv' (i0 + 1)
              = map (fun i => inject_Z i / fps) ids
              /\ StronglySorted Z.lt ids
              /\ Forall (fun i => (i0 + 1 < i
                                   <= i0 + Z.of_nat (S (length frames)))%Z) ids).
    { intros pv'. destruct (IH pv' (i0 + 1)%Z) as (ids & Heq & Hs & Hall).
      exists ids. split; [done|]. split; [done|].
      eapply Forall_impl; [exact Hall|]. intros i. simpl. destruct pv'; lia. }
    destruct pv as [pf|].
    + destruct (flow_exceeds pf (annotate frm0)).
      * destruct (Hweak (Some (highlight (annotate frm0)))) as (ids & Heq & Hs & Hall).
        exists ((i0 + 1)%Z :: ids). split; [by rewrite Heq|].
        split.
        { constructor; [done|]. eapply Forall_impl; [exact Hall|].
          intros i. simpl. lia. }
        constructor; [lia|]. eapply Forall_impl; [exact Hall|].
        intros i. simpl. lia.
      * destruct (Hweak (Some (annotate frm0))) as (ids & Heq & Hs & Hall).
        exists ids. split; [done|]. split; [done|].
        eapply Forall_impl; [exact Hall|]. intros i. simpl. lia.
    + destruct (Hweak (Some (annotate frm0))) as (ids & Heq & Hs & Hall).
      exists ids. split; [done|]. split; [done|].
      eapply Forall_impl; [exact Hall|]. intros i. simpl. lia.
Qed.



(** The loop counts every frame and writes every frame. *)
Lemma frame_loop_counts fps frames : forall st w st' w',
  frame_loop fps frames st w = (Ok st', w') ->
  idx st' = (idx st + Z.of_nat (length frames))%Z
  /\ length (written st') = (length (written st) + length frames)%nat.
Proof.
  induction frames as [|frm0 frames IH]; intros st w st' w'.
  - intros [= <- <-]. simpl. split; lia.
  - cbn [frame_loop].
    destruct (match prev st with
              | Some p => flow_exceeds p (annotate frm0)
              | None => false
              end).
    + intros Hrun. apply bind_Ok in Hrun as ([] & w1 & _ & Hrun).
      apply IH in Hrun as [Hi Hw]. cbn [idx written] in Hi, Hw.
      rewrite length_app in Hw. cbn [length] in *. split; lia.
    + intros Hrun. apply IH in Hrun as [Hi Hw]. cbn [idx written] in Hi, Hw.
      rewrite length_app in Hw. cbn [length] in *. split; lia.
Qed.

(** X4. The frame loop of [process_video] and [main] returns on every
    video; it has then counted and written every frame, and every
    timestamp it has recorded is a frame index from 2 on, over the frame
    rate: the first frame is never recorded. *)
Theorem frame_loop_records_indices (fps : Q) (frames : list frame) (w : world) :
  exists st w',
    frame_loop fps frames (LoopState None [] 0%Z []) w = (Ok st, w')
    /\ idx st = Z.of_nat (length frames)
    /\ length (written st) = length frames
    /\ Forall (fun t => exists i : Z,
                 (2 <= i <= Z.of_nat (length frames))%Z /\ t = inject_Z i / fps)
         (times st)
    /\ (length (times st) <= length frames - 1)%nat.
Proof.
  destruct (frame_loop_returns fps frames (LoopState None [] 0%Z []) w)
    as (st & w' & Hrun & Htimes).
  exists st, w'. split; [done|].
  destruct (frame_loop_counts _ _ _ _ _ _ Hrun) as [Hi Hw].
  cbn [idx written length] in Hi, Hw. split; [lia|]. split; [lia|].
  cbn [times prev idx app] in Htimes. rewrite Htimes.
  destruct (anomaly_times_indices fps frames None 0) as (ids & -> & Hs & Hall).
  split.
  - apply Forall_map. eapply Forall_impl; [exact Hall|].
    intros i Hi'. cbv beta in *. exists i. split; [lia|done].
  - rewrite length_map.
    assert (Hlen : forall (l : list Z) (a : Z) (n : nat),
              StronglySorted Z.lt l ->
              Forall (fun i => (a < i <= a + Z.of_nat n)%Z) l ->
              (length l <= n)%nat).
    { clear. induction l as [|i l IH]; intros a n Hs Hall; simpl; [lia|].
      inversion Hs as [|? ? Hs' Hlt]; subst.
      inversion Hall as [|? ? Hi Hall']; subst.
      destruct n as [|n]; [lia|].
      specialize (IH i (Z.to_nat (a + Z.of_nat (S n) - i)) Hs').
      assert (length l <= Z.to_nat (a + Z.of_nat (S n) - i))%nat; [|lia].
      apply IH. rewrite Forall_forall in *. intros j Hj.
      specialize (Hlt _ Hj). specialize (Hall' _ Hj). simpl in *. lia. }
    destruct frames as [|f0 frames'].
    + inversion Hall as [|i ids' Hi' _]; [done|]. simpl in Hi'. lia.
    + cbn [length]. replace (S (length frames') - 1)%nat with (length frames') by lia.
      apply (Hlen ids 1%Z (length frames') Hs).
      eapply Forall_impl; [exact Hall|]. intros i. cbn [length]. lia.
Qed.



End PipelineMore.

(** ** What the effects leave in place *)

Section InvariantFacts.
Import Fs Invariants.

Lemma preserves_ret {A} I (a : A) : preserves I (ret a).
Proof. by intros w r w' [= <- <-]. Qed.

Lemma preserves_raise {A} I e : preserves I (raise (A := A) e).
Proof. by intros w r w' [= <- <-]. Qed.

Lemma preserves_get_fs I : preserves I get_fs.
Proof. by intros w r w' [= <- <-]. Qed.

Lemma preserves_emit I e : preserves I (emit e).
Proof. by intros w r w' [= <- <-]. Qed.

Lemma preserves_bind {A B} I (m : M A) (k : A -> M B) :
  preserves I m -> (forall a, preserves I (k a)) -> preserves I (bind m k).
Proof.
  intros Hm Hk w r w'. unfold bind.
  destruct (m w) as [[a|e] w1] eqn:E; intros Hrun HI.
  - eapply Hk; [exact Hrun|]. by eapply Hm.
  - injection Hrun as <- <-. by eapply Hm.
Qed.

Lemma preserves_for_each {A} I (body : A -> M unit) l :
  (forall x, x ∈ l -> preserves I (body x)) -> preserves I (for_each body l).
Proof.
  induction l as [|x l IH]; intros Hbody; [apply preserves_ret|].
  apply preserves_bind; [apply Hbody; by left|]. intros _.
  apply IH. intros y Hy. apply Hbody. by right.
Qed.

Lemma preserves_listdir I p : preserves I (listdir p).
Proof.
  apply preserves_bind; [apply preserves_get_fs|]. intros root.
  destruct (lookup_path root p) as [[data|es]|];
    auto using preserves_ret, preserves_raise.
Qed.

Lemma preserves_read_file I p : preserves I (Pipeline.read_file p).
Proof. intros w r w'. rewrite read_file_run. by intros [= <- <-]. Qed.

Lemma preserves_read_all I ps : preserves I (Pipeline.read_all ps).
Proof.
  induction ps as [|q ps IH]; [apply preserves_ret|].
  apply preserves_bind; [apply preserves_read_file|]. intros d.
  apply preserves_bind; [apply IH|]. intros ds. apply preserves_ret.
Qed.

Lemma preserves_os_remove (I : node -> Prop) p :
  (forall root data, I root -> lookup_path root p = Some (File data) ->
                     I (remove_path root p)) ->
  preserves I (os_remove p).
Proof.
  intros HI w r w'. unfold os_remove, bind, get_fs, set_fs, emit, raise.
  destruct (lookup_path (w_fs w) p) as [[data|es]|] eqn:E;
    intros [= <- <-] Hw; simpl; eauto.
Qed.

Lemma preserves_write (I : node -> Prop) p data :
  (forall root es, I root -> lookup_path root (parent p) = Some (Dir es) ->
                   (forall es', lookup_path root p <> Some (Dir es')) ->
                   I (write_path root p data)) ->
  preserves I (open_write p data) /\ preserves I (cv_write p data).
Proof.
  intros HI. split; intros w r w';
    unfold open_write, cv_write, bind, get_fs, set_fs, emit, ret, raise;
    destruct (lookup_path (w_fs w) (parent p)) as [[d|es]|] eqn:Ep;
    try (by intros [= <- <-]);
    destruct (lookup_path (w_fs w) p) as [[d|es']|] eqn:Et;
    intros [= <- <-] Hw; simpl; try done;
    (eapply HI; [done|done|]; intros es0; congruence).
Qed.

(** *** Paths that do not meet *)

Lemma write_path_one c top data :
  write_path (Dir top) [c] data = Dir (put c (File data) top).
Proof. reflexivity. Qed.

Lemma lookup_two_inv root d f v :
  lookup_path root [d; f] = Some v ->
  exists top es, root = Dir top /\ assoc d top = Some (Dir es) /\ assoc f es = Some v.
Proof.
  destruct root as [data|top]; simpl; [done|].
  destruct (assoc d top) as [[data|es]|] eqn:Ed; simpl; try done.
  destruct (assoc f es) as [n|] eqn:Ef; [|done]. intros [= <-]. eauto 10.
Qed.

Lemma write_keeps_file2 root d f x p data :
  lookup_path root [d; f] = Some (File x) ->
  shallow p -> p <> [d; f] ->
  (forall es', lookup_path root p <> Some (Dir es')) ->
  lookup_path (write_path root p data) [d; f] = Some (File x).
Proof.
  intros Hq Hp Hne Hnd.
  apply lookup_two_inv in Hq as (top & es & -> & Hd & Hf).
  destruct Hp as [[c ->]|(d' & f' & ->)].
  - rewrite write_path_one, lookup_path_two.
    destruct (decide (c = d)) as [->|Hc].
    + exfalso. apply (Hnd es). simpl. by rewrite Hd.
    + rewrite assoc_put_ne by done. rewrite Hd. simpl. by rewrite Hf.
  - rewrite write_path_two, lookup_path_two.
    rewrite (assoc_map_update d' (fun n => write_path n [f'] data)).
    case_decide as Hdd.
    + subst d'. rewrite Hd. simpl. rewrite assoc_put_ne by congruence.
      by rewrite Hf.
    + rewrite Hd. simpl. by rewrite Hf.
Qed.

Lemma write_keeps_file1 root c x p data :
  lookup_path root [c] = Some (File x) ->
  shallow p -> p <> [c] ->
  lookup_path (write_path root p data) [c] = Some (File x).
Proof.
  intros Hq Hp Hne.
  apply lookup_path_one in Hq as (top & -> & Hc).
  destruct Hp as [[c' ->]|(d' & f' & ->)].
  - rewrite write_path_one. simpl. rewrite assoc_put_ne by congruence.
    by rewrite Hc.
  - rewrite write_path_two. simpl.
    rewrite (assoc_map_update d' (fun n => write_path n [f'] data)).
    case_decide; by rewrite Hc.
Qed.

Lemma remove_keeps_dir2 root d f es p data :
  lookup_path root [d; f] = Some (Dir es) ->
  shallow p -> lookup_path root p = Some (File data) ->
  lookup_path (remove_path root p) [d; f] = Some (Dir es).
Proof.
  intros Hq Hp Hfile.
  apply lookup_two_inv in Hq as (top & esd & -> & Hd & Hf).
  destruct Hp as [[c ->]|(d' & f' & ->)].
  - rewrite remove_path_one, lookup_path_two, assoc_filter_ne.
    simpl in Hfile. case_decide as Hc.
    + subst c. by rewrite Hd in Hfile.
    + rewrite Hd. simpl. by rewrite Hf.
  - rewrite remove_path_two, lookup_path_two.
    rewrite (assoc_map_update d' (fun n => remove_path n [f'])).
    rewrite lookup_path_two in Hfile.
    case_decide as Hdd.
    + subst d'. rewrite Hd in Hfile |- *. simpl in Hfile |- *.
      rewrite assoc_filter_ne. case_decide as Hff.
      * subst f'. by rewrite Hf in Hfile.
      * by rewrite Hf.
    + rewrite Hd. simpl. by rewrite Hf.
Qed.

Lemma remove_keeps_top root c v p :
  lookup_path root [c] = Some v ->
  (exists c', p = [c'] /\ c' <> c) \/ (exists d' f', p = [d'; f'] /\ d' <> c) ->
  lookup_path (remove_path root p) [c] = Some v.
Proof.
  intros Hq Hp. apply lookup_path_one in Hq as (top & -> & Hc).
  destruct Hp as [(c' & -> & Hne)|(d' & f' & -> & Hne)].
  - rewrite remove_path_one. simpl. rewrite assoc_filter_ne.
    rewrite decide_False by congruence. by rewrite Hc.
  - rewrite remove_path_two. simpl.
    rewrite (assoc_map_update d' (fun n => remove_path n [f'])).
    rewrite decide_False by congruence. by rewrite Hc.
Qed.

End InvariantFacts.

(** ** What cleanup keeps, and what blocks it *)

Section LifecycleMore.
Import Fs Lifecycle Pipeline Invariants.
Context {frame : Type} `{Collaborators frame}.

Lemma clean_dirs_keeps_top key c v :
  c ∉ [CLIP_DIR; FRAME_DIR; GROUND_TRUTH] -> stale key c = false ->
  preserves (fun root => lookup_path root [c] = Some v) (clean_dirs key).
Proof.
  intros Hc Hstale. unfold clean_dirs. apply preserves_bind.
  - apply preserves_for_each. intros d Hd.
    apply preserves_bind; [apply preserves_listdir|]. intros names.
    apply preserves_for_each. intros f _.
    apply preserves_os_remove. intros root data HI _.
    apply remove_keeps_top; [done|]. right. exists d, f. split; [done|].
    by intros ->.
  - intros _. apply preserves_bind; [apply preserves_listdir|]. intros names.
    apply preserves_for_each. intros f _.
    destruct (stale key f) eqn:Hf; [|apply preserves_ret].
    apply preserves_os_remove. intros root data HI _.
    apply remove_keeps_top; [done|]. left. exists f. split; [done|].
    intros ->. congruence.
Qed.

Lemma clean_dirs_keeps_subdir key d f es :
  preserves (fun root => lookup_path root [d; f] = Some (Dir es)) (clean_dirs key).
Proof.
  unfold clean_dirs. apply preserves_bind.
  - apply preserves_for_each. intros d' _.
    apply preserves_bind; [apply preserves_listdir|]. intros names.
    apply preserves_for_each. intros f' _.
    apply preserves_os_remove. intros root data HI Hfile.
    eapply remove_keeps_dir2; [done| |done]. right. eauto.
  - intros _. apply preserves_bind; [apply preserves_listdir|]. intros names.
    apply preserves_for_each. intros f' _.
    destruct (stale key f'); [|apply preserves_ret].
    apply preserves_os_remove. intros root data HI Hfile.
    eapply remove_keeps_dir2; [done| |done]. left. eauto.
Qed.

(** X7. Whether it returns or raises, [clean_dirs(k)] leaves in place every
    entry of the working directory other than the three directories it
    sweeps and the names starting with [processed_k] or [combined_k]: the
    [originals] directory with all earlier uploads and [summaries.json]
    are never cleaned. *)
Theorem clean_dirs_keeps_the_rest (key c : string) (v : node) (w w' : world)
    (r : result unit) :
  clean_dirs key w = (r, w') ->
  c ∉ [CLIP_DIR; FRAME_DIR; GROUND_TRUTH] ->
  startswith ("processed_" +:+ key) c = false ->
  startswith ("combined_" +:+ key) c = false ->
  lookup_path (w_fs w) [c] = Some v ->
  lookup_path (w_fs w') [c] = Some v.
Proof.
  intros Hrun Hc Hp Hcb Hv.
  eapply (clean_dirs_keeps_top key c v); [done| |exact Hrun|done].
  unfold stale. by rewrite Hp, Hcb.
Qed.

(** X8. A subdirectory inside the clip, frame or ground-truth directory
    makes [clean_dirs] raise, for every key, and is still there afterwards:
    every [process_video] request fails with that error, before anything is
    written, for as long as the subdirectory exists. *)
Theorem clean_dirs_blocked_by_subdirectory (key d f : string)
    (es : list (string * node)) (w : world) :
  d ∈ [CLIP_DIR; FRAME_DIR; GROUND_TRUTH] ->
  lookup_path (w_fs w) [d; f] = Some (Dir es) ->
  exists e w',
    clean_dirs key w = (Raise e, w')
    /\ lookup_path (w_fs w') [d; f] = Some (Dir es)
    /\ (forall filename upload,
          splitext_root filename = key ->
          process_video filename upload w = (Raise e, w')).
Proof.
  intros Hd Hsub.
  destruct (clean_dirs key w) as [[[]|e] w'] eqn:Hrun.
  - exfalso.
    pose proof (clean_dirs_keeps_subdir key d f es _ _ _ Hrun Hsub) as Hafter.
    destruct (clean_dirs_Ok _ _ _ Hrun) as (top' & Hfs & Hc & Hf & Hg & _).
    rewrite Hfs, lookup_path_two in Hafter.
    apply elem_of_cons in Hd as [->|Hd]; [by rewrite Hc in Hafter|].
    apply elem_of_cons in Hd as [->|Hd]; [by rewrite Hf in Hafter|].
    apply elem_of_cons in Hd as [->|Hd]; [by rewrite Hg in Hafter|].
    by apply elem_of_nil in Hd.
  - exists e, w'. split; [done|]. split.
    + exact (clean_dirs_keeps_subdir key d f es _ _ _ Hrun Hsub).
    + intros filename upload <-. unfold process_video, prepare.
      apply bind_Raise. by apply bind_Raise.
Qed.

End LifecycleMore.

(** ** What a run leaves for the endpoints *)

Section RunInvariants.
Import Fs Lifecycle Segmenter Margin Pipeline Invariants.
Context {frame : Type} `{Collaborators frame}.

Variable I : node -> Prop.
Variables out_full out_combined : path.
Hypothesis HW : forall p data,
  step_path out_full out_combined p -> preserves I (cv_write p data).

Lemma preserves_frame_loop fps frames : forall st,
  preserves I (frame_loop fps frames st).
Proof.
  induction frames as [|frm0 frames IH]; intros st; [apply preserves_ret|].
  cbn [frame_loop].
  destruct (match prev st with
            | Some p => flow_exceeds p (annotate frm0)
            | None => false
            end); [|apply IH].
  apply preserves_bind; [|intros _; apply IH].
  apply HW. right. left. eauto.
Qed.

Lemma preserves_cut_clips vlen segments : forall i,
  preserves I (cut_clips out_full vlen i segments).
Proof.
  induction segments as [|seg segments IH]; intros i; [apply preserves_ret|].
  cbn [cut_clips]. destruct (margined _ _ _) as [start end_].
  apply preserves_bind.
  - unfold export_clip. apply preserves_bind; [apply preserves_read_file|].
    intros d. apply HW. do 2 right. left. eauto.
  - intros _. apply preserves_bind; [apply IH|]. intros rest. apply preserves_ret.
Qed.

Lemma preserves_stitch_parts fps pairs : preserves I (stitch_parts fps pairs).
Proof.
  induction pairs as [|[clip [s e]] pairs IH]; [apply preserves_ret|].
  cbn [stitch_parts]. apply preserves_bind.
  - unfold create_timestamp_clip. apply preserves_bind; [|intros _; apply preserves_ret].
    apply HW. do 3 right. left. eauto.
  - intros tmp. apply preserves_bind; [apply IH|]. intros parts. apply preserves_ret.
Qed.

Lemma preserves_cut_and_summarize cap :
  (forall data, preserves I (open_write ["summaries.json"] data)) ->
  preserves I (cut_and_summarize out_full out_combined cap).
Proof.
  intros HO. unfold cut_and_summarize.
  apply preserves_bind; [apply HW; by left|]. intros _.
  apply preserves_bind; [apply preserves_frame_loop|]. intros st.
  apply preserves_bind; [apply HW; by left|]. intros _.
  apply preserves_bind; [apply preserves_cut_clips|]. intros clip_files.
  apply preserves_bind; [|intros summary; apply preserves_ret].
  unfold upload_and_summarize. destruct clip_files as [|c cs]; [apply preserves_ret|].
  apply preserves_bind.
  { unfold stitch_clips.
    apply preserves_bind; [apply preserves_stitch_parts|]. intros parts.
    apply preserves_bind; [apply HW; by do 4 right|]. intros _.
    apply preserves_bind; [apply preserves_read_all|]. intros ds.
    apply preserves_bind; [apply HW; by do 4 right|]. intros _.
    apply preserves_ret. }
  intros combined. apply preserves_bind; [apply preserves_read_file|]. intros fh.
  do 3 (apply preserves_bind; [apply preserves_emit|]; intros _).
  apply preserves_bind; [apply HO|]. intros _. apply preserves_ret.
Qed.

(** Without segments only the annotated video and the frames are written. *)
Lemma preserves_without_segments cap w r w' :
  run_segments cap = [] ->
  cut_and_summarize out_full out_combined cap w = (r, w') ->
  I (w_fs w) -> I (w_fs w').
Proof.
  intros Hsegs. unfold cut_and_summarize.
  destruct (cv_write_returns out_full (encode_video (run_fps cap) []) w)
    as [w1 Hw1].
  rewrite (bind_step _ _ _ _ _ Hw1).
  destruct (frame_loop_returns (run_fps cap) (v_frames cap)
              (LoopState None [] 0%Z []) w1) as (st & w2 & Hloop & Htimes).
  rewrite (bind_step _ _ _ _ _ Hloop).
  destruct (cv_write_returns out_full (encode_video (run_fps cap) (written st)) w2)
    as [w3 Hw3].
  rewrite (bind_step _ _ _ _ _ Hw3).
  cbn [times prev idx app] in Htimes.
  unfold run_segments in Hsegs. rewrite <- Htimes in Hsegs. rewrite Hsegs.
  cbn [cut_clips]. unfold bind at 1, ret at 1.
  cbn [upload_and_summarize]. unfold bind, ret. intros [= <- <-] HI.
  eapply (HW out_full); [by left|exact Hw3|].
  eapply preserves_frame_loop; [exact Hloop|].
  eapply (HW out_full); [by left|exact Hw1|done].
Qed.

End RunInvariants.

Section RunRoundTrips.
Import Fs Lifecycle Segmenter Margin Pipeline Invariants RangeServing Endpoints.
Context {frame : Type} `{Collaborators frame}.

Lemma keeps_file2 d f x p data :
  shallow p -> p <> [d; f] ->
  preserves (fun root => lookup_path root [d; f] = Some (File x)) (open_write p data)
  /\ preserves (fun root => lookup_path root [d; f] = Some (File x)) (cv_write p data).
Proof.
  intros Hp Hne. apply preserves_write. intros root es Hq _ Hnd.
  by apply write_keeps_file2.
Qed.

Lemma keeps_file1 c x p data :
  shallow p -> p <> [c] ->
  preserves (fun root => lookup_path root [c] = Some (File x)) (open_write p data)
  /\ preserves (fun root => lookup_path root [c] = Some (File x)) (cv_write p data).
Proof.
  intros Hp Hne. apply preserves_write. intros root es Hq _ _.
  by apply write_keeps_file1.
Qed.

Lemma step_path_shallow a b p : step_path [a] [b] p -> shallow p.
Proof.
  intros [ -> | [ [f ->] | [ [f ->] | [ [t ->] | -> ] ] ] ]; unfold shallow; eauto.
Qed.

Lemma step_path_not_in a b p d f :
  d <> FRAME_DIR -> d <> CLIP_DIR -> step_path [a] [b] p -> p <> [d; f].
Proof.
  intros Hf Hc [ -> | [ [f' ->] | [ [f' ->] | [ [t ->] | -> ] ] ] ]; congruence.
Qed.

Lemma plot_Ok_inv file_path key gt w w' :
  plot_and_save_ground_truth_labels file_path key w = (Ok gt, w') ->
  exists npz png,
    lookup_path (w_fs w) file_path = Some (File npz)
    /\ plot_labels npz key = Some png
    /\ gt = key +:+ "_groundtruth.png"
    /\ open_write [GROUND_TRUTH; gt] png w = (Ok tt, w').
Proof.
  unfold plot_and_save_ground_truth_labels. intros Hrun.
  apply bind_Ok in Hrun as (d & w1 & Hread & Hrun).
  rewrite read_file_run in Hread. injection Hread as <- <-.
  destruct (lookup_path (w_fs w) file_path) as [[npz|es]|]; try done.
  destruct (plot_labels npz key) as [png|] eqn:Hplot; [|done].
  apply bind_Ok in Hrun as ([] & w1 & Hw & Hret).
  injection Hret as <- <-. eauto 10.
Qed.

Lemma prepare_Ok_inv key filename upload gt w w2 :
  prepare key filename upload w = (Ok gt, w2) ->
  exists wc w1 npz png,
    clean_dirs key w = (Ok tt, wc)
    /\ open_write [ORIGINAL_DIR; filename] upload wc = (Ok tt, w1)
    /\ lookup_path (w_fs w1) ["NWPU_Campus_gt.npz"] = Some (File npz)
    /\ plot_labels npz key = Some png
    /\ gt = key +:+ "_groundtruth.png"
    /\ open_write [GROUND_TRUTH; gt] png w1 = (Ok tt, w2).
Proof.
  unfold prepare. intros Hrun.
  apply bind_Ok in Hrun as ([] & wc & Hclean & Hrun).
  apply bind_Ok in Hrun as ([] & w1 & Hsave & Hplot).
  apply plot_Ok_inv in Hplot as (npz & png & ? & ? & ? & ?). eauto 15.
Qed.

Lemma process_video_Ok_inv filename upload w resp w' :
  process_video filename upload w = (Ok resp, w') ->
  exists gt w2 cap,
    prepare (splitext_root filename) filename upload w = (Ok gt, w2)
    /\ decode upload = Some cap
    /\ analyse (splitext_root filename) filename gt cap w2 = (Ok resp, w').
Proof.
  unfold process_video. intros Hrun.
  apply bind_Ok in Hrun as (gt & w2 & Hprep & Hrun).
  rewrite (bind_step _ _ _ _ _ (read_file_run _ _)) in Hrun.
  rewrite (prepare_saved _ _ _ _ _ _ Hprep) in Hrun.
  destruct (decode upload) as [cap|] eqn:Hdec; [|done]. eauto 10.
Qed.

Lemma analyse_Ok_inv key filename gt cap w resp w' :
  analyse key filename gt cap w = (Ok resp, w') ->
  exists clip_files summary,
    cut_and_summarize ["processed_" +:+ key +:+ EXT]
      ["combined_" +:+ key +:+ EXT] cap w = (Ok (clip_files, summary), w')
    /\ resp = Response filename
                (map (fun c : path * segment => List.last c.1 "") clip_files)
                summary [gt].
Proof.
  unfold analyse. intros Hrun.
  apply bind_Ok in Hrun as ([clip_files summary] & w1 & Hcut & Hret).
  injection Hret as <- <-. eauto.
Qed.

(** The files a run writes after steps 0 to 2 leave a file of another
    directory than the frame and clip directories alone. *)
Lemma analyse_keeps_file2 key filename gt cap d f x :
  d <> FRAME_DIR -> d <> CLIP_DIR ->
  preserves (fun root => lookup_path root [d; f] = Some (File x))
    (analyse key filename gt cap).
Proof.
  intros Hf Hc. unfold analyse. apply preserves_bind.
  - apply preserves_cut_and_summarize.
    + intros p data Hp. apply keeps_file2.
      * by eapply step_path_shallow.
      * by eapply step_path_not_in.
    + intros data. apply keeps_file2; [left; eauto|done].
  - intros [clip_files summary]. apply preserves_ret.
Qed.

(** X9. After a run that has returned, the upload is served back: a
    request to [/originals/<original_video>] without a Range header gets the
    bytes that were uploaded. *)
Theorem uploaded_video_is_served (filename : string) (upload : list byte)
    (w w' : world) (resp : ProcessVideoResponse) (req : request) :
  process_video filename upload w = (Ok resp, w') ->
  headers_get "range" (headers req) = None ->
  original_video resp = filename
  /\ get_original (w_fs w') req (original_video resp)
     = FileResponse [ORIGINAL_DIR; filename] upload "video/mp4".
Proof.
  intros Hrun Hreq.
  apply process_video_Ok_inv in Hrun as (gt & w2 & cap & Hprep & Hdec & Han).
  pose proof (prepare_saved _ _ _ _ _ _ Hprep) as Hsaved.
  assert (lookup_path (w_fs w') [ORIGINAL_DIR; filename] = Some (File upload))
    as Hkept.
  { eapply (analyse_keeps_file2 _ filename gt cap ORIGINAL_DIR filename upload);
      [done|done|exact Han|done]. }
  apply analyse_Ok_inv in Han as (clip_files & summary & _ & ->).
  split; [done|]. cbn [original_video].
  unfold get_original, _range_file. by rewrite Hkept, Hreq.
Qed.


(** *** Clips and summary *)

Lemma export_clip_returns src a b dst w :
  exists w', export_clip src a b dst w = (Ok tt, w').
Proof.
  unfold export_clip. rewrite (bind_step _ _ _ _ _ (read_file_run _ _)).
  apply cv_write_returns.
Qed.

(** Cutting never raises and gives one clip per segment, numbered on. *)
Lemma cut_clips_returns src vlen segments : forall i w,
  exists w',
    cut_clips src vlen i segments w
    = (Ok (zip (map clip_path (seqZ i (Z.of_nat (length segments)))) segments), w').
Proof.
  induction segments as [|seg segments IH]; intros i w.
  - eexists. reflexivity.
  - cbn [cut_clips length]. destruct (margined _ _ _) as [a b].
    destruct (export_clip_returns src a b
                [CLIP_DIR; "clip_" +:+ zfill 2 i +:+ EXT] w) as [w1 Hw1].
    rewrite (bind_step _ _ _ _ _ Hw1).
    destruct (IH (i + 1)%Z w1) as [w2 Hw2].
    rewrite (bind_step _ _ _ _ _ Hw2).
    exists w2. unfold ret.
    rewrite (seqZ_cons i) by lia. cbn [map zip zip_with].
    replace (Z.succ i) with (i + 1)%Z by lia.
    by replace (Z.pred (Z.of_nat (S (length segments))))
      with (Z.of_nat (length segments)) by lia.
Qed.




(** The clips of a run are those of its segments. *)
Lemma cut_and_summarize_Ok out_full out_combined cap w clip_files summary w' :
  cut_and_summarize out_full out_combined cap w = (Ok (clip_files, summary), w') ->
  clip_files
  = zip (map clip_path (seqZ 1 (Z.of_nat (length (run_segments cap)))))
      (run_segments cap)
  /\ exists w4, upload_and_summarize clip_files out_combined (run_fps cap) w4
                = (Ok summary, w').
Proof.
  unfold cut_and_summarize. intros Hrun.
  apply bind_Ok in Hrun as ([] & w1 & _ & Hrun).
  apply bind_Ok in Hrun as (st & w2 & Hloop & Hrun).
  apply bind_Ok in Hrun as ([] & w3 & _ & Hrun).
  apply bind_Ok in Hrun as (cf & w4 & Hcut & Hrun).
  apply bind_Ok in Hrun as (s & w5 & Hup & Hret).
  injection Hret as <- <- <-.
  destruct (frame_loop_returns (run_fps cap) (v_frames cap)
              (LoopState None [] 0%Z []) w1) as (st0 & w2' & Hloop' & Htimes).
  rewrite Hloop in Hloop'. injection Hloop' as <- <-.
  cbn [times prev idx app] in Htimes. rewrite Htimes in Hcut.
  fold (run_segments cap) in Hcut.
  destruct (cut_clips_returns out_full
              (inject_Z (v_frame_count cap) / run_fps cap)
              (run_segments cap) 1 w3) as [w4' Hcut'].
  rewrite Hcut in Hcut'. injection Hcut' as -> _. eauto.
Qed.


(** X12. A run without segments does not touch [summaries.json]: when an
    earlier run has left one, the summaries endpoint keeps serving that
    earlier summary, while the response of this run has [summary_file]
    empty. *)
Theorem earlier_summary_stays_served (filename : string) (upload : list byte)
    (cap : video frame) (old : list byte) (w w' : world)
    (resp : ProcessVideoResponse) :
  process_video filename upload w = (Ok resp, w') ->
  decode upload = Some cap ->
  run_segments cap = [] ->
  lookup_path (w_fs w) ["summaries.json"] = Some (File old) ->
  summary_file resp = ""
  /\ get_summaries (w_fs w') = FileResponse ["summaries.json"] old "application/json".
Proof.
  intros Hrun Hdec Hsegs Hold.
  apply process_video_Ok_inv in Hrun as (gt & w2 & cap' & Hprep & Hdec' & Han).
  rewrite Hdec in Hdec'. injection Hdec' as <-.
  apply prepare_Ok_inv in Hprep as (wc & w1 & npz & png & Hclean & Hsave & _ & _ & -> & Hplot).
  assert (lookup_path (w_fs wc) ["summaries.json"] = Some (File old)) as Hc.
  { eapply (clean_dirs_keeps_top _ "summaries.json"); [| |exact Hclean|done].
    - intros Hin. repeat (apply elem_of_cons in Hin as [Hin|Hin]; [done|]).
      by apply elem_of_nil in Hin.
    - done. }
  assert (lookup_path (w_fs w1) ["summaries.json"] = Some (File old)) as H1.
  { eapply (proj1 (keeps_file1 "summaries.json" old [ORIGINAL_DIR; filename]
                     upload ltac:(right; eauto) ltac:(done)));
      [exact Hsave|done]. }
  assert (lookup_path (w_fs w2) ["summaries.json"] = Some (File old)) as H2.
  { eapply (proj1 (keeps_file1 "summaries.json" old
                     [GROUND_TRUTH; splitext_root filename +:+ "_groundtruth.png"]
                     png ltac:(right; eauto) ltac:(done)));
      [exact Hplot|done]. }
  apply analyse_Ok_inv in Han as (clip_files & summary & Hcut & ->).
  assert (lookup_path (w_fs w') ["summaries.json"] = Some (File old)) as Hkept.
  { eapply (preserves_without_segments
              (fun root => lookup_path root ["summaries.json"] = Some (File old)));
      [|exact Hsegs|exact Hcut|exact H2].
    intros p data Hp. apply keeps_file1; [by eapply step_path_shallow|].
    destruct Hp as [ -> | [ [f ->] | [ [f ->] | [ [t ->] | -> ] ] ] ]; done. }
  apply cut_and_summarize_Ok in Hcut as (-> & w4 & Hup).
  rewrite Hsegs in Hup. simpl in Hup. injection Hup as <- _.
  split; [done|]. unfold get_summaries. by rewrite Hkept.
Qed.

(** X13. An upload that [cv2.VideoCapture] cannot open is rejected with
    status 400 only after steps 0 to 2: cleanup has been done, and the
    upload and the ground-truth plot stay on disk. *)
Theorem invalid_video_rejected_after_save (filename : string)
    (upload : list byte) (gt : string) (w w2 : world) :
  prepare (splitext_root filename) filename upload w = (Ok gt, w2) ->
  decode upload = None ->
  process_video filename upload w = (Raise (HTTPException 400), w2)
  /\ lookup_path (w_fs w2) [ORIGINAL_DIR; filename] = Some (File upload)
  /\ exists png, lookup_path (w_fs w2) [GROUND_TRUTH; gt] = Some (File png).
Proof.
  intros Hprep Hdec.
  pose proof (prepare_saved _ _ _ _ _ _ Hprep) as Hsaved.
  split; [|split; [done|]].
  - unfold process_video. rewrite (bind_step _ _ _ _ _ Hprep).
    rewrite (bind_step _ _ _ _ _ (read_file_run _ _)).
    by rewrite Hsaved, Hdec.
  - apply prepare_Ok_inv in Hprep as (wc & w1 & npz & png & _ & _ & _ & _ & -> & Hw).
    exists png. by apply open_write_read in Hw.
Qed.

(** X14. When the ground-truth archive has no labels for the key of the
    upload, the request fails with [KeyError] after cleanup has been done
    and the upload has been saved; no plot is written. *)
Theorem unknown_key_rejected_after_save (filename : string)
    (upload npz : list byte) (w wc w1 : world) :
  clean_dirs (splitext_root filename) w = (Ok tt, wc) ->
  open_write [ORIGINAL_DIR; filename] upload wc = (Ok tt, w1) ->
  lookup_path (w_fs w1) ["NWPU_Campus_gt.npz"] = Some (File npz) ->
  plot_labels npz (splitext_root filename) = None ->
  process_video filename upload w
  = (Raise (KeyError (splitext_root filename)), w1)
  /\ lookup_path (w_fs w1) [ORIGINAL_DIR; filename] = Some (File upload).
Proof.
  intros Hclean Hsave Hnpz Hplot. split; [|by eapply open_write_read].
  unfold process_video, prepare.
  apply bind_Raise. rewrite (bind_step _ _ _ _ _ Hclean).
  rewrite (bind_step _ _ _ _ _ Hsave).
  unfold plot_and_save_ground_truth_labels.
  rewrite (bind_step _ _ _ _ _ (read_file_run _ _)).
  by rewrite Hnpz, Hplot.
Qed.

End RunRoundTrips.

(** ** Names *)

Section NameFacts.
Import Fs Lifecycle Segmenter Margin Pipeline Invariants RangeServing.
Context {frame : Type} `{Collaborators frame}.

Lemma list_ascii_of_string_app (s t : string) :
  list_ascii_of_string (s +:+ t) = list_ascii_of_string s ++ list_ascii_of_string t.
Proof.
  induction s as [|c s IH]; [done|]. rewrite append_cons. simpl. by rewrite IH.
Qed.

Lemma list_ascii_of_string_inj (s t : string) :
  list_ascii_of_string s = list_ascii_of_string t -> s = t.
Proof.
  intros Heq. rewrite <- (string_of_list_ascii_of_string s),
    <- (string_of_list_ascii_of_string t). by rewrite Heq.
Qed.

Lemma append_inj_r (a b s : string) : a +:+ s = b +:+ s -> a = b.
Proof.
  intros Heq. apply list_ascii_of_string_inj.
  apply (f_equal list_ascii_of_string) in Heq.
  rewrite !list_ascii_of_string_app in Heq. by apply app_inv_tail in Heq.
Qed.

Lemma int_acc_zeros k (s : string) :
  int_acc 0 (string_of_list_ascii (replicate k "0"%char) +:+ s) = int_acc 0 s.
Proof.
  induction k as [|k IH]; [done|].
  cbn [replicate string_of_list_ascii]. rewrite append_cons. cbn [int_acc].
  by change (10 * 0 + digit_value "0")%Z with 0%Z.
Qed.

(** [int(f"{n:0<w>d}") == n] for [n >= 0]. *)
Lemma int_zfill (width : nat) (n : Z) : (0 <= n)%Z -> int (zfill width n) = n.
Proof.
  intros Hn. unfold zfill, int. rewrite int_acc_zeros.
  by destruct (str_digits n Hn) as [Hint _].
Qed.

Lemma clip_name_inj (i j : Z) :
  (0 <= i)%Z -> (0 <= j)%Z -> clip_name i = clip_name j -> i = j.
Proof.
  intros Hi Hj Heq. unfold clip_name in Heq.
  apply (inj (String.app "clip_")) in Heq. apply append_inj_r in Heq.
  rewrite <- (int_zfill 2 i Hi), <- (int_zfill 2 j Hj). by rewrite Heq.
Qed.

(** X15. Cutting the clips never raises; it returns one clip per segment,
    in order, and with a first index that is not negative the clip files
    are pairwise distinct, also beyond 99 clips: no clip overwrites
    another. *)
Theorem cut_clips_distinct_files (src : path) (vlen : Q) (i : Z)
    (segments : list segment) (w : world) :
  (0 <= i)%Z ->
  exists clip_files w',
    cut_clips src vlen i segments w = (Ok clip_files, w')
    /\ map snd clip_files = segments
    /\ map fst clip_files
       = map clip_path (seqZ i (Z.of_nat (length segments)))
    /\ NoDup (map fst clip_files).
Proof.
  intros Hi. destruct (cut_clips_returns src vlen segments i w) as [w' Hrun].
  eexists _, w'. split; [exact Hrun|].
  assert (length (map clip_path (seqZ i (Z.of_nat (length segments))))
          = length segments) as Hlen.
  { rewrite length_map, length_seqZ. lia. }
  assert (map fst (zip (map clip_path (seqZ i (Z.of_nat (length segments)))) segments)
          = map clip_path (seqZ i (Z.of_nat (length segments)))) as Hfst.
  { apply fst_zip. lia. }
  split; [apply snd_zip; lia|]. split; [exact Hfst|].
  rewrite Hfst. apply NoDup_fmap_2_strong; [|apply NoDup_seqZ].
  intros a b Ha Hb Heq. apply elem_of_seqZ in Ha, Hb.
  assert (clip_name a = clip_name b) as Hname
    by (unfold clip_path in Heq; congruence).
  apply clip_name_inj in Hname; [done|lia|lia].
Qed.


(** *** [os.path.splitext] *)

Lemma split_last_dot_None cs :
  "."%char ∉ cs -> split_last_dot cs = None.
Proof.
  induction cs as [|c cs IH]; [done|]. intros Hnot. simpl.
  rewrite IH by (intros Hin; apply Hnot; by right).
  rewrite decide_False; [done|]. intros ->. apply Hnot. by left.
Qed.

Lemma split_last_dot_app stem ext :
  "."%char ∉ ext ->
  split_last_dot (stem ++ "."%char :: ext) = Some (stem, "."%char :: ext).
Proof.
  intros Hext. induction stem as [|c stem IH]; simpl.
  - by rewrite (split_last_dot_None ext Hext).
  - by rewrite IH.
Qed.

(** X16. The key of an upload whose name has no directory separator: a
    name without a dot is its own key; for [<stem>.<ext>], where the
    extension has no dot and the stem has a character other than a dot,
    the key is the stem. *)
Theorem splitext_root_stem (stem ext p : string) :
  ("/"%char ∉ list_ascii_of_string p ->
   "."%char ∉ list_ascii_of_string p -> splitext_root p = p)
  /\ ("/"%char ∉ list_ascii_of_string (stem +:+ "." +:+ ext) ->
      "."%char ∉ list_ascii_of_string ext ->
      (exists c, c ∈ list_ascii_of_string stem /\ c <> "."%char) ->
      splitext_root (stem +:+ "." +:+ ext) = stem).
Proof.
  split.
  - intros _ Hp. unfold splitext_root. by rewrite split_last_dot_None.
  - intros _ Hext (c & Hc & Hne). unfold splitext_root.
    rewrite list_ascii_of_string_app. simpl.
    change (list_ascii_of_string ("." +:+ ext))
      with ("."%char :: list_ascii_of_string ext).
    rewrite (split_last_dot_app _ _ Hext).
    destruct (forallb _ (list_ascii_of_string stem)) eqn:Hall.
    + exfalso. rewrite forallb_forall in Hall.
      apply list_elem_of_In in Hc. specialize (Hall _ Hc).
      by apply bool_decide_eq_true in Hall.
    + apply string_of_list_ascii_of_string.
Qed.


(** *** The file of a title card *)

Lemma replace_char_chars (a b c : ascii) (s : string) :
  c ∈ list_ascii_of_string (replace_char a b s) ->
  c = b \/ (c <> a /\ c ∈ list_ascii_of_string s).
Proof.
  induction s as [|x s IH]; simpl; [intros Hin; by apply elem_of_nil in Hin|].
  intros Hin. apply elem_of_cons in Hin as [->|Hin].
  - case_decide; [by left|]. right. split; [done|by left].
  - destruct (IH Hin) as [?|[? ?]]; [by left|]. right. split; [done|by right].
Qed.

Lemma replace_char_length (a b : ascii) (s : string) :
  String.length (replace_char a b s) = String.length s.
Proof. induction s as [|x s IH]; simpl; [done|]. by rewrite IH. Qed.

Lemma length_append (s t : string) :
  String.length (s +:+ t) = (String.length s + String.length t)%nat.
Proof.
  induction s as [|c s IH]; [done|]. rewrite append_cons. simpl. by rewrite IH.
Qed.

(** X17. [create_timestamp_clip] always returns, and the name of the file it
    writes, [ts_<text>.mp4], has neither a space nor a colon, whatever the
    text, and is seven characters longer than the text. *)
Theorem create_timestamp_clip_name (text : string) (fps : Q) (w : world) :
  exists name w',
    create_timestamp_clip text fps w = (Ok [name], w')
    /\ (" "%char ∉ list_ascii_of_string name)
    /\ (":"%char ∉ list_ascii_of_string name)
    /\ String.length name = (String.length text + 7)%nat.
Proof.
  unfold create_timestamp_clip.
  set (body := replace_char ":" "-" (replace_char " " "_" text)).
  destruct (cv_write_returns ["ts_" +:+ body +:+ ".mp4"] (title_card text fps) w)
    as [w' Hw].
  exists ("ts_" +:+ body +:+ ".mp4"), w'.
  rewrite (bind_step _ _ _ _ _ Hw). split; [done|].
  assert (Hchars : forall c, c ∈ list_ascii_of_string ("ts_" +:+ body +:+ ".mp4") ->
            c ∈ list_ascii_of_string "ts_" \/ c ∈ list_ascii_of_string body
            \/ c ∈ list_ascii_of_string ".mp4").
  { intros c. rewrite !list_ascii_of_string_app, !elem_of_app. tauto. }
  assert (Hfixed : forall c,
            c ∈ list_ascii_of_string "ts_" \/ c ∈ list_ascii_of_string ".mp4" ->
            c <> " "%char /\ c <> ":"%char).
  { intros c [Hin|Hin];
      repeat (apply elem_of_cons in Hin as [->|Hin]; [done|]);
      by apply elem_of_nil in Hin. }
  split; [|split].
  - intros Hin. apply Hchars in Hin as [Hin|[Hin|Hin]].
    + by destruct (Hfixed _ (or_introl Hin)).
    + apply replace_char_chars in Hin as [?|[_ Hin]]; [done|].
      apply replace_char_chars in Hin as [?|[? _]]; done.
    + by destruct (Hfixed _ (or_intror Hin)).
  - intros Hin. apply Hchars in Hin as [Hin|[Hin|Hin]].
    + by destruct (Hfixed _ (or_introl Hin)).
    + apply replace_char_chars in Hin as [?|[? _]]; done.
    + by destruct (Hfixed _ (or_intror Hin)).
  - rewrite !length_append. unfold body. rewrite !replace_char_length.
    simpl. lia.
Qed.

End NameFacts.

(** ** Range serving, further *)

Section RangeMore.
Import Fs RangeServing Endpoints.
Local Open Scope Z_scope.

(** X18. Text after the range is ignored: a header [bytes=<start>-<end?>]
    followed by anything that does not start with a digit, such as the
    further ranges of a multi-range request, is answered like the header
    without it. *)
Theorem range_file_ignores_trailing_text (root : node) (req req' : request)
    (p : path) (media_type : string) (sd ed rest : string) :
  headers_get "range" (headers req)
    = Some ("bytes=" +:+ sd +:+ "-" +:+ ed +:+ rest) ->
  headers_get "range" (headers req') = Some ("bytes=" +:+ sd +:+ "-" +:+ ed) ->
  sd <> EmptyString -> all_digits sd -> all_digits ed ->
  (span_digits rest).1 = EmptyString ->
  _range_file root req p media_type = _range_file root req' p media_type.
Proof.
  intros Hh Hh' Hne Hsd Hed Hrest.
  pose proof (re_match_range_format sd ed rest Hne Hsd Hed) as Hm.
  rewrite Hrest, append_nil_r in Hm.
  pose proof (re_match_range_exact sd ed Hne Hsd Hed) as Hm'.
  destruct (lookup_path root p) as [[data|es]|] eqn:Hp.
  - rewrite (range_file_on_match _ _ _ _ _ _ _ _ Hp Hh Hm).
    by rewrite (range_file_on_match _ _ _ _ _ _ _ _ Hp Hh' Hm').
  - unfold _range_file. by rewrite Hp.
  - unfold _range_file. by rewrite Hp.
Qed.

Lemma range_file_ignores_trailing_text_witness :
  _range_file Samples.sample_root (Request [("range", "bytes=0-1,3-4")])
    ["originals"; "a.mp4"] "video/mp4"
  = _range_file Samples.sample_root (Request [("range", "bytes=0-1")])
      ["originals"; "a.mp4"] "video/mp4".
Proof.
  apply (range_file_ignores_trailing_text Samples.sample_root
           (Request [("range", "bytes=0-1,3-4")]) (Request [("range", "bytes=0-1")])
           ["originals"; "a.mp4"] "video/mp4" "0" "1" ",3-4").
  - reflexivity.
  - reflexivity.
  - discriminate.
  - repeat constructor.
  - repeat constructor.
  - reflexivity.
Defined.








End RangeMore.

(** ** The read loop of [export_clip], the title card, the checkpoint *)

Section HelperFacts.
Import ClipLoop TitleCard Checkpoint.

(** X22. The frames [export_clip] writes are the longest run of frames,
    from the position sought, whose reported position is not past the end
    of the clip: writing stops at the first frame past the end, which is
    read but not written, or when the capture has no more frames. *)
Theorem export_loop_longest_prefix {frame : Type} (end_s : Q)
    (stream : list (frame * Q)) :
  exists n : nat,
    export_loop end_s stream = map fst (take n stream)
    /\ Forall (fun fp : frame * Q => fp.2 / 1000 <= end_s) (take n stream)
    /\ match stream !! n with
       | Some fp => end_s < fp.2 / 1000
       | None => n = length stream
       end.
Proof.
  induction stream as [|[f pos] stream (n & Heq & Hall & Hstop)].
  - exists 0%nat. by repeat split.
  - cbn [export_loop]. destruct (Qlt_bool end_s (pos / 1000)) eqn:E.
    + exists 0%nat. apply Qlt_bool_iff in E. by repeat split.
    + exists (S n). apply Qlt_bool_false in E. cbn [take map fst].
      split; [by rewrite Heq|]. split; [by constructor|].
      simpl. destruct (stream !! n); [done|]. by rewrite Hstop.
Qed.

(** X23. The title text is centred on the frame: the margins left and
    right of it differ by at most one pixel, and so do the margins above
    and below it. *)
Theorem text_origin_centred (w h tw th : Z) :
  let org := text_origin w h (tw, th) in
  let left := org.1 in
  let right := (w - tw - org.1)%Z in
  let top := (org.2 - th)%Z in
  let bottom := (h - org.2)%Z in
  (0 <= right - left <= 1)%Z /\ (0 <= bottom - top <= 1)%Z.
Proof.
  unfold text_origin. cbn [fst snd].
  pose proof (Z.div_mod (w - tw) 2 ltac:(lia)).
  pose proof (Z.mod_pos_bound (w - tw) 2 ltac:(lia)).
  pose proof (Z.div_mod (h + th) 2 ltac:(lia)).
  pose proof (Z.mod_pos_bound (h + th) 2 ltac:(lia)).
  lia.
Qed.

(** *** The checkpoint keys *)

Lemma prefix_nil (s : string) : String.prefix "" s = true.
Proof. by destruct s. Qed.

Lemma substring_all (s : string) : String.substring 0 (String.length s) s = s.
Proof. induction s as [|c s IH]; simpl; [done|]. by rewrite IH. Qed.

Lemma new_key_prefixed (k : string) : new_key ("module." +:+ k) = k.
Proof.
  unfold new_key.
  change ("module." +:+ k)
    with (String "m" (String "o" (String "d" (String "u" (String "l"
           (String "e" (String "." k))))))).
  simpl. rewrite prefix_nil, Nat.sub_0_r. apply substring_all.
Qed.

Lemma od_set_fresh {V} (k : string) (v : V) (d : list (string * V)) :
  k ∉ map fst d -> od_set k v d = d ++ [(k, v)].
Proof.
  induction d as [|[k' v'] d IH]; simpl; [done|]. intros Hk.
  rewrite decide_False by (intros ->; apply Hk; by left).
  rewrite IH; [done|]. intros Hin. apply Hk. by right.
Qed.

Lemma rename_fold {V} (l : list (string * V)) : forall acc,
  NoDup (map fst acc ++ map (fun kv => new_key kv.1) l) ->
  fold_left (fun new_state kv => od_set (new_key kv.1) kv.2 new_state) l acc
  = acc ++ map (fun kv => (new_key kv.1, kv.2)) l.
Proof.
  induction l as [|[k v] l IH]; intros acc Hnd; simpl.
  - by rewrite app_nil_r.
  - simpl in Hnd. apply NoDup_app in Hnd as (Hacc & Hdisj & Hl).
    apply NoDup_cons in Hl as [Hk Hl].
    rewrite od_set_fresh.
    2:{ intros Hin. apply (Hdisj _ Hin). by left. }
    rewrite IH.
    + by rewrite <- app_assoc.
    + rewrite map_app. simpl. rewrite <- app_assoc. simpl.
      apply NoDup_app. split; [done|]. split.
      * intros x Hx Hin. apply elem_of_cons in Hin as [->|Hin].
        -- apply (Hdisj _ Hx). by left.
        -- apply (Hdisj _ Hx). by right.
      * by apply NoDup_cons.
Qed.

(** X24. The key renaming of [load_raft]: when no two keys of the
    checkpoint come out equal, the new state has the entries of the
    checkpoint in their order, each under its key without a leading
    [module.]; so a state saved with every key prefixed by [module.] is
    loaded as the state itself, and one without such keys is unchanged. *)
Theorem rename_keys_strips_prefix {V : Type} (state : list (string * V)) :
  (NoDup (map (fun kv => new_key kv.1) state) ->
   rename_keys state = map (fun kv => (new_key kv.1, kv.2)) state)
  /\ (NoDup (map fst state) ->
      rename_keys (map (fun kv => ("module." +:+ kv.1, kv.2)) state) = state)
  /\ (NoDup (map fst state) ->
      Forall (fun kv => String.prefix "module." kv.1 = false) state ->
      rename_keys state = state).
Proof.
  assert (Hgen : forall l : list (string * V),
            NoDup (map (fun kv => new_key kv.1) l) ->
            rename_keys l = map (fun kv => (new_key kv.1, kv.2)) l).
  { intros l Hnd. unfold rename_keys. by rewrite rename_fold. }
  split; [apply Hgen|]. split.
  - intros Hnd. rewrite Hgen.
    + rewrite List.map_map. simpl.
      rewrite <- (List.map_id state) at 2. apply List.map_ext.
      intros [k v]. simpl. by rewrite new_key_prefixed.
    + rewrite List.map_map. simpl.
      erewrite List.map_ext; [exact Hnd|].
      intros [k v]. simpl. by rewrite new_key_prefixed.
  - intros Hnd Hplain.
    assert (map (fun kv : string * V => (new_key kv.1, kv.2)) state = state) as Hid.
    { rewrite <- (List.map_id state) at 2. apply map_ext_Forall.
      eapply Forall_impl; [exact Hplain|]. intros [k v] Hk. simpl in *.
      unfold new_key. by rewrite Hk. }
    rewrite Hgen; [done|].
    rewrite <- Hid in Hnd. by rewrite List.map_map in Hnd.
Qed.

End HelperFacts.

(** ** The script of [main.py] *)

Section ScriptFacts.
Import Fs Lifecycle Segmenter Margin Pipeline Invariants.
Context {frame : Type} `{Collaborators frame}.

Lemma write_path_same root p es data :
  shallow p -> lookup_path root (parent p) = Some (Dir es) ->
  lookup_path (write_path root p data) p = Some (File data).
Proof.
  intros [[c ->]|(d & f & ->)] Hpar.
  - change (parent [c]) with (@nil string) in Hpar. simpl in Hpar.
    injection Hpar as ->. rewrite write_path_one. simpl.
    by rewrite assoc_put_eq.
  - change (parent [d; f]) with [d] in Hpar.
    apply lookup_path_one in Hpar as (top & -> & Hd).
    rewrite write_path_two, lookup_path_two.
    rewrite (assoc_map_update d (fun n => write_path n [f] data)).
    rewrite decide_True by done. rewrite Hd. simpl.
    by rewrite assoc_put_eq.
Qed.

(** A write never turns a file into something else. *)
Lemma write_keeps_a_file p q data :
  shallow p -> shallow q ->
  preserves (fun root => exists y, lookup_path root p = Some (File y))
    (open_write q data)
  /\ preserves (fun root => exists y, lookup_path root p = Some (File y))
       (cv_write q data).
Proof.
  intros Hp Hq. apply preserves_write. intros root es [y Hy] Hpar Hnd.
  destruct (decide (q = p)) as [->|Hne].
  - exists data. by eapply write_path_same.
  - exists y. destruct Hp as [[c ->]|(d & f & ->)].
    + by apply write_keeps_file1.
    + by apply write_keeps_file2.
Qed.

Lemma makedirs_keeps_a_file d p :
  shallow p ->
  preserves (fun root => exists y, lookup_path root p = Some (File y))
    (makedirs d).
Proof.
  intros Hp w r w'. unfold makedirs, bind, get_fs, set_fs, ret, raise.
  destruct (w_fs w) as [data|top] eqn:Hfs.
  { intros [= <- <-]. by rewrite Hfs. }
  destruct (assoc d top) as [[data|es]|] eqn:Hd; intros [= <- <-];
    try by rewrite Hfs.
  intros [y Hy]. exists y. cbn [w_fs].
  destruct Hp as [[c ->]|(d' & f & ->)].
  - simpl in Hy |- *. rewrite assoc_app.
    by destruct (assoc c top).
  - rewrite lookup_path_two in Hy |- *. rewrite assoc_app.
    by destruct (assoc d' top).
Qed.

Lemma emits_makedirs P d : emits P (makedirs d).
Proof.
  intros w r w' Hrun. apply makedirs_run in Hrun as [-> _].
  exists []. by rewrite app_nil_r.
Qed.

(** X25. [main] of [main.py] never deletes: whether it returns or raises,
    it removes no file, and every file that was in the working directory,
    or one directory below it, before the run is still a file afterwards;
    the clips and frames of earlier runs are not swept as [process_video]
    sweeps them. *)
Theorem main_never_deletes (w w' : world) (r : result unit) :
  main w = (r, w') ->
  (exists written,
     w_trace w' = w_trace w ++ written /\ Forall not_remove written)
  /\ (forall p x,
        shallow p -> lookup_path (w_fs w) p = Some (File x) ->
        exists y, lookup_path (w_fs w') p = Some (File y)).
Proof.
  intros Hrun. split.
  - revert w r w' Hrun. change (emits not_remove main). unfold main.
    apply emits_bind; [apply emits_makedirs|]. intros _.
    apply emits_bind; [apply emits_makedirs|]. intros _.
    apply emits_bind; [apply emits_get_fs|]. intros root.
    apply emits_bind; [apply emits_cut_and_summarize|]. intros _.
    apply emits_ret.
  - intros p x Hp Hx.
    assert (preserves (fun root => exists y, lookup_path root p = Some (File y))
              main) as Hmain.
    { unfold main.
      apply preserves_bind; [by apply makedirs_keeps_a_file|]. intros _.
      apply preserves_bind; [by apply makedirs_keeps_a_file|]. intros _.
      apply preserves_bind; [apply preserves_get_fs|]. intros root.
      apply preserves_bind; [|intros _; apply preserves_ret].
      apply preserves_cut_and_summarize.
      - intros q data Hq. apply write_keeps_a_file; [done|].
        by eapply step_path_shallow.
      - intros data. apply write_keeps_a_file; [done|]. left. eauto. }
    eapply Hmain; [exact Hrun|]. eauto.
Qed.

End ScriptFacts.

(** ** Sample runs of the further properties *)

Section MoreSamples.
Import Fs Lifecycle Segmenter Margin RangeServing Pipeline Endpoints.
Import Invariants Checkpoint Samples.



Lemma clean_dirs_keeps_the_rest_witness :
  lookup_path (w_fs (clean_dirs "k" used_world).2) ["summaries.json"]
  = Some (File [x07])
  /\ lookup_path (w_fs (clean_dirs "k" used_world).2) [ORIGINAL_DIR]
     = Some (Dir []).
Proof.
  split.
  - apply (clean_dirs_keeps_the_rest "k" "summaries.json" (File [x07])
             used_world (clean_dirs "k" used_world).2
             (clean_dirs "k" used_world).1).
    + vm_compute. reflexivity.
    + intros Hin. repeat (apply elem_of_cons in Hin as [Hin|Hin]; [done|]).
      by apply elem_of_nil in Hin.
    + reflexivity.
    + reflexivity.
    + reflexivity.
  - apply (clean_dirs_keeps_the_rest "k" ORIGINAL_DIR (Dir [])
             used_world (clean_dirs "k" used_world).2
             (clean_dirs "k" used_world).1).
    + vm_compute. reflexivity.
    + intros Hin. repeat (apply elem_of_cons in Hin as [Hin|Hin]; [done|]).
      by apply elem_of_nil in Hin.
    + reflexivity.
    + reflexivity.
    + reflexivity.
Defined.

Lemma clean_dirs_blocked_by_subdirectory_witness :
  exists e w',
    clean_dirs "other" blocked_world = (Raise e, w')
    /\ lookup_path (w_fs w') [CLIP_DIR; "sub"] = Some (Dir [])
    /\ (forall filename upload,
          splitext_root filename = "other" ->
          process_video (H := sample_collaborators) filename upload blocked_world
          = (Raise e, w')).
Proof.
  apply (clean_dirs_blocked_by_subdirectory (H := sample_collaborators)
           "other" CLIP_DIR "sub" [] blocked_world).
  - by left.
  - reflexivity.
Defined.

Lemma uploaded_video_is_served_witness :
  get_original (w_fs (process_video "k.mp4" [x01; x02; x03] used_world).2)
    (Request []) "k.mp4"
  = FileResponse [ORIGINAL_DIR; "k.mp4"] [x01; x02; x03] "video/mp4".
Proof.
  apply (uploaded_video_is_served (H := sample_collaborators)
           "k.mp4" [x01; x02; x03] used_world
           (process_video "k.mp4" [x01; x02; x03] used_world).2
           (Response "k.mp4" [] "" ["k_groundtruth.png"]) (Request [])).
  - vm_compute. reflexivity.
  - reflexivity.
Defined.



Lemma earlier_summary_stays_served_witness :
  summary_file (Response "k.mp4" [] "" ["k_groundtruth.png"]) = ""
  /\ get_summaries (w_fs (process_video "k.mp4" [x01; x02; x03] used_world).2)
     = FileResponse ["summaries.json"] [x07] "application/json".
Proof.
  apply (earlier_summary_stays_served (H := sample_collaborators)
           "k.mp4" [x01; x02; x03] (Video 25 3 [1; 2; 3]%nat) [x07]
           used_world).
  - vm_compute. reflexivity.
  - reflexivity.
  - reflexivity.
  - reflexivity.
Defined.

Lemma invalid_video_rejected_after_save_witness :
  let w2 := (prepare "k" "k.mp4" [] used_world).2 in
  process_video "k.mp4" [] used_world = (Raise (HTTPException 400), w2)
  /\ lookup_path (w_fs w2) [ORIGINAL_DIR; "k.mp4"] = Some (File [])
  /\ exists png,
       lookup_path (w_fs w2) [GROUND_TRUTH; "k_groundtruth.png"]
       = Some (File png).
Proof.
  apply (invalid_video_rejected_after_save (H := sample_collaborators)
           "k.mp4" [] "k_groundtruth.png" used_world).
  - vm_compute. reflexivity.
  - reflexivity.
Defined.

Lemma unknown_key_rejected_after_save_witness :
  let wc := (clean_dirs "missing" used_world).2 in
  let w1 := (open_write [ORIGINAL_DIR; "missing.mp4"] [x01; x02] wc).2 in
  process_video "missing.mp4" [x01; x02] used_world
  = (Raise (KeyError "missing"), w1)
  /\ lookup_path (w_fs w1) [ORIGINAL_DIR; "missing.mp4"]
     = Some (File [x01; x02]).
Proof.
  apply (unknown_key_rejected_after_save (H := sample_collaborators)
           "missing.mp4" [x01; x02] [x04] used_world
           (clean_dirs "missing" used_world).2).
  - vm_compute. reflexivity.
  - vm_compute. reflexivity.
  - reflexivity.
  - reflexivity.
Defined.

Lemma cut_clips_distinct_files_witness :
  exists clip_files w',
    cut_clips (H := sample_collaborators) ["processed_k.mp4"] 20 1
      [(1, 2); (8, 9)] used_world = (Ok clip_files, w')
    /\ map snd clip_files = [(1, 2); (8, 9)]
    /\ map fst clip_files
       = map clip_path
           (seqZ 1 (Z.of_nat (length ([(1, 2); (8, 9)] : list segment))))
    /\ NoDup (map fst clip_files).
Proof.
  apply (cut_clips_distinct_files (H := sample_collaborators)
           ["processed_k.mp4"] 20 1 [(1, 2); (8, 9)] used_world).
  lia.
Defined.

Lemma splitext_root_stem_witness :
  splitext_root "clip" = "clip"
  /\ splitext_root ("D001_03" +:+ "." +:+ "avi") = "D001_03".
Proof.
  split.
  - apply (splitext_root_stem "" "" "clip"); vm_compute;
      intros Hin; repeat (apply elem_of_cons in Hin as [Hin|Hin]; [done|]);
      by apply elem_of_nil in Hin.
  - apply (splitext_root_stem "D001_03" "avi" "").
    + vm_compute.
      intros Hin. repeat (apply elem_of_cons in Hin as [Hin|Hin]; [done|]).
      by apply elem_of_nil in Hin.
    + intros Hin. repeat (apply elem_of_cons in Hin as [Hin|Hin]; [done|]).
      by apply elem_of_nil in Hin.
    + exists "D"%char. split; [by left|done].
Defined.

Lemma rename_keys_strips_prefix_witness :
  rename_keys [("module.fnet.w", 1%nat); ("update.b", 2%nat)]
  = [("fnet.w", 1%nat); ("update.b", 2%nat)]
  /\ rename_keys (map (fun kv => ("module." +:+ kv.1, kv.2))
                    [("fnet.w", 1%nat); ("update.b", 2%nat)])
     = [("fnet.w", 1%nat); ("update.b", 2%nat)]
  /\ rename_keys [("fnet.w", 1%nat); ("update.b", 2%nat)]
     = [("fnet.w", 1%nat); ("update.b", 2%nat)].
Proof.
  split; [|split].
  - apply (proj1 (rename_keys_strips_prefix
                    [("module.fnet.w", 1%nat); ("update.b", 2%nat)])).
    apply (bool_decide_unpack _). vm_compute. exact I.
  - apply (proj1 (proj2 (rename_keys_strips_prefix
                           [("fnet.w", 1%nat); ("update.b", 2%nat)]))).
    apply (bool_decide_unpack _). vm_compute. exact I.
  - apply (proj2 (proj2 (rename_keys_strips_prefix
                           [("fnet.w", 1%nat); ("update.b", 2%nat)]))).
    + apply (bool_decide_unpack _). vm_compute. exact I.
    + repeat constructor.
Defined.

Lemma main_never_deletes_witness :
  (exists written,
     w_trace (main (H := sample_collaborators) script_world).2
     = w_trace script_world ++ written
     /\ Forall not_remove written)
  /\ (forall p x,
        shallow p -> lookup_path (w_fs script_world) p = Some (File x) ->
        exists y,
          lookup_path (w_fs (main (H := sample_collaborators) script_world).2) p
          = Some (File y)).
Proof.
  apply (main_never_deletes (H := sample_collaborators) script_world
           (main (H := sample_collaborators) script_world).2
           (main (H := sample_collaborators) script_world).1).
  vm_compute. reflexivity.
Defined.

(** The run of [script_world]: the first clip is written anew, the second
    one is the clip of the earlier run. *)
Example main_script_world :
  let w' := (main (H := sample_collaborators) script_world).2 in
  lookup_path (w_fs w') [CLIP_DIR; "clip_01.mp4"]
  = Some (File [x01; x20; x21; x50; x51])
  /\ lookup_path (w_fs w') [CLIP_DIR; "clip_02.mp4"] = Some (File [x02]).
Proof. vm_compute. split; reflexivity. Qed.

End MoreSamples.
